(** * Area-scoped head detection: [getTgtRect] and [PersonCounter::detectHeads]

    A shallow embedding of [src/person_counter.cpp], of the structs of
    [src/person_counter.h] and of the command-line program that calls
    them.  The image library (OpenCV) and the detector
    (class [Inference]) are outside the translated file: the codec and the
    detector are parameters of the development, and the few [cv::Mat]
    operations the source calls are modelled on a store of pixel buffers. *)

From Stdlib Require Import ZArith Lia List String.
From stdpp Require Import base tactics option list.

Open Scope Z_scope.

(** ** The C++ [int]: 32 bits, two's complement *)

Module Int.

Definition min_int : Z := -2147483648.
Definition max_int : Z := 2147483647.

Definition in_range (z : Z) : Prop := min_int <= z <= max_int.

(** Reduction of a mathematical integer to the 32-bit signed range. *)
Definition wrap (z : Z) : Z := (z + 2147483648) mod 4294967296 - 2147483648.

Definition add (a b : Z) : Z := wrap (a + b).
Definition sub (a b : Z) : Z := wrap (a - b).

End Int.

(** A C++ [float] is only ever copied by the translated code, never computed
    with: it is kept by its IEEE-754 binary32 bit pattern. *)
Definition float : Type := Z.

(** ** The structs of [person_counter.h] *)

Module Rect.
Record t : Type := mk
  { x : Z; y : Z; width : Z; height : Z; confidence : float }.
End Rect.

Module OBJPos.
Record t : Type := mk { x : Z; y : Z }.
End OBJPos.

Module Thresholds.
Record t : Type := mk
  { confidenceThreshold : float;
    scoreThreshold : float;
    nmsThreshold : float }.
End Thresholds.

(** ** The parts of OpenCV the source uses *)

(** A decoded colour image ([cv::IMREAD_COLOR]): rows of B,G,R pixels. *)
Definition pixel : Type := (Byte.byte * Byte.byte * Byte.byte)%type.
Definition Raster : Type := list (list pixel).

Definition raster_rows (r : Raster) : Z := Z.of_nat (length r).
Definition raster_cols (r : Raster) : Z :=
  match r with
  | [] => 0
  | row :: _ => Z.of_nat (length row)
  end.

(** The [w] columns from [x] and the [h] rows from [y] of a raster. *)
Definition block (r : Raster) (x y w h : Z) : Raster :=
  (fun row => take (Z.to_nat w) (drop (Z.to_nat x) row))
    <$> take (Z.to_nat h) (drop (Z.to_nat y) r).

Module cv.

(** [cv::Rect]: four [int] fields. *)
Module Rect.
Record t : Type := mk { x : Z; y : Z; width : Z; height : Z }.
End Rect.

(** [cv::Mat]: a header over a reference-counted pixel buffer.  Several
    headers may share one buffer; [data] is the buffer's index in the
    store, [None] the null pointer, and ([ox], [oy]) the header's origin
    inside the buffer. *)
Module Mat.
Record t : Type := mk
  { data : option nat; ox : Z; oy : Z; rows : Z; cols : Z }.

(** The default-constructed matrix. *)
Definition none : t := mk None 0 0 0 0.

(** [Mat::empty()]: no data, or no element. *)
Definition empty (m : t) : bool :=
  match data m with
  | None => true
  | Some _ => rows m * cols m =? 0
  end.

(** The pixels a header shows, in a store of buffers. *)
Definition contents (heap : list Raster) (m : t) : Raster :=
  match data m with
  | None => []
  | Some b =>
      match heap !! b with
      | Some r => block r (ox m) (oy m) (cols m) (rows m)
      | None => []
      end
  end.

(** The bounds assertion of [Mat::operator()(const Rect&)]. *)
Definition roi_ok (m : t) (r : Rect.t) : bool :=
  (0 <=? Rect.x r) && (0 <=? Rect.width r)
  && (Int.add (Rect.x r) (Rect.width r) <=? cols m)
  && (0 <=? Rect.y r) && (0 <=? Rect.height r)
  && (Int.add (Rect.y r) (Rect.height r) <=? rows m).

(** The header [m(r)] once the assertion holds: it shares [m]'s buffer;
    a view without rows or columns is released. *)
Definition view (m : t) (r : Rect.t) : t :=
  if (Rect.height r <=? 0) || (Rect.width r <=? 0) then none
  else mk (data m) (ox m + Rect.x r) (oy m + Rect.y r)
          (Rect.height r) (Rect.width r).
End Mat.

End cv.

(** ** [getTgtRect] *)

(** The four local accumulators of the loop. *)
Record Corners : Type := mkCorners { ltx : Z; lty : Z; rbx : Z; rby : Z }.

(** One iteration of [for (auto &&p : vertices)]: four independent tests. *)
Definition scan_vertex (c : Corners) (p : OBJPos.t) : Corners :=
  let ltx' := if ltx c >? OBJPos.x p then OBJPos.x p else ltx c in
  let lty' := if lty c >? OBJPos.y p then OBJPos.y p else lty c in
  let rbx' := if rbx c <? OBJPos.x p then OBJPos.x p else rbx c in
  let rby' := if rby c <? OBJPos.y p then OBJPos.y p else rby c in
  mkCorners ltx' lty' rbx' rby'.

Definition getTgtRect (vertices : list OBJPos.t) (cam_width cam_height : Z)
  : cv.Rect.t :=
  let c := fold_left scan_vertex vertices
             (mkCorners cam_width cam_height 0 0) in
  cv.Rect.mk (ltx c) (lty c) (Int.sub (rbx c) (ltx c)) (Int.sub (rby c) (lty c)).

(** Least and greatest element of a list of coordinates. *)
Definition is_min (m : Z) (l : list Z) : Prop := m ∈ l ∧ ∀ z, z ∈ l → m <= z.
Definition is_max (m : Z) (l : list Z) : Prop := m ∈ l ∧ ∀ z, z ∈ l → z <= m.

Definition xs (vertices : list OBJPos.t) : list Z := map OBJPos.x vertices.
Definition ys (vertices : list OBJPos.t) : list Z := map OBJPos.y vertices.

(** Every vertex lies in the closed box [[0, w] x [0, h]]. *)
Definition within (w h : Z) (vertices : list OBJPos.t) : Prop :=
  ∀ p, p ∈ vertices → 0 <= OBJPos.x p <= w ∧ 0 <= OBJPos.y p <= h.

(** ** The detector's interface *)

(** Modelled from the spec: [inference.h] is not among the sources.  Of
    [struct Detection] the pipeline reads [box] and [confidence] only (the
    spec's DetectionBox, a box with a confidence). *)
Module Detection.
Record t : Type := mk { box : cv.Rect.t; confidence : float }.
End Detection.

(** What one run of the detector yields: its detections, or [None] when it
    throws, and the pixels it leaves in the buffer it was handed. *)
Record Inferred : Type := mkInferred
  { output : option (list Detection.t); input_after : Raster }.

(** What the codec yields for a byte buffer: an image, the empty matrix, or
    an exception of the image library. *)
Inductive Decoded : Type :=
| DecImage (r : Raster)
| DecEmpty
| DecThrow.

(** ** State, exceptions and the trace of calls *)

Inductive level : Type := LvError | LvTrace.

(** The calls the pipeline makes to its collaborators, in order. *)
Inductive Event : Type :=
| EvImdecode (buf : list Byte.byte)
| EvLog (l : level) (msg : string) (arg : option Z)
| EvRoi (r : cv.Rect.t)
| EvClone (m : cv.Mat.t)
| EvSetThresholds (conf score nms : float)
| EvRunInference (src : cv.Mat.t).

(** The caller's objects that the three reference parameters of
    [detectHeads] are bound to. *)
Record Args : Type := mkArgs
  { jpegData : list Byte.byte;
    vertices : list OBJPos.t;
    thresholds : Thresholds.t }.

Record World : Type := mkWorld
  { heap : list Raster;        (* the pixel buffers, by index *)
    inf : Thresholds.t;        (* the thresholds held by the detector *)
    trace : list Event;
    args : Args }.

Inductive exn : Type := CvException | InferenceException.

Inductive Res (A : Type) : Type :=
| Ok (a : A)
| Throw (e : exn).
Arguments Ok {A} a.
Arguments Throw {A} e.

Definition M (A : Type) : Type := World -> Res A * World.

Definition ret {A} (a : A) : M A := fun w => (Ok a, w).

Definition bind {A B} (c : M A) (k : A -> M B) : M B :=
  fun w =>
    match c w with
    | (Ok a, w') => k a w'
    | (Throw e, w') => (Throw e, w')
    end.

Notation "'let!' x ':=' c 'in' k" := (bind c (fun x => k))
  (at level 10, x name, c at level 100, k at level 200).
Notation "c ';;;' k" := (bind c (fun _ => k))
  (at level 100, k at level 200, right associativity).

Definition raise {A} (e : exn) : M A := fun w => (Throw e, w).

Definition emit (e : Event) : M unit :=
  fun w => (Ok tt, mkWorld (heap w) (inf w) (trace w ++ [e]) (args w)).

(** Reading a reference parameter. *)
Definition arg {A} (f : Args -> A) : M A := fun w => (Ok (f (args w)), w).

(** A new buffer at the end of the store; its index is returned. *)
Definition alloc (r : Raster) : M nat :=
  fun w => (Ok (length (heap w)),
            mkWorld (heap w ++ [r]) (inf w) (trace w) (args w)).

Definition shown (m : cv.Mat.t) : M Raster :=
  fun w => (Ok (cv.Mat.contents (heap w) m), w).

(** Overwriting the buffer behind a header (nothing for the null pointer). *)
Definition overwrite (m : cv.Mat.t) (r : Raster) : M unit :=
  fun w =>
    match cv.Mat.data m with
    | Some b => (Ok tt, mkWorld (<[b := r]> (heap w)) (inf w) (trace w) (args w))
    | None => (Ok tt, w)
    end.

Definition spdlog_error (msg : string) : M unit := emit (EvLog LvError msg None).
Definition spdlog_trace (msg : string) (n : Z) : M unit :=
  emit (EvLog LvTrace msg (Some n)).

(** The loop of [detectHeads] over [output], from index [i], with [n]
    iterations left; [results.push_back] appends. *)
Fixpoint translate_from (tgtRect : cv.Rect.t) (output : list Detection.t)
    (i n : nat) (results : list Rect.t) : list Rect.t :=
  match n with
  | O => results
  | S n' =>
      match output !! i with
      | Some detection =>
          let box := Detection.box detection in
          let result :=
            Rect.mk (Int.add (cv.Rect.x box) (cv.Rect.x tgtRect))
                    (Int.add (cv.Rect.y box) (cv.Rect.y tgtRect))
                    (cv.Rect.width box)
                    (cv.Rect.height box)
                    (Detection.confidence detection) in
          translate_from tgtRect output (S i) n' (results ++ [result])
      | None => results
      end
  end.

(** The result the spec gives for a detection [b] of a crop at [rect]: the
    origin moved by the crop's origin, the rest copied. *)
Definition translated (rect : cv.Rect.t) (b : Detection.t) : Rect.t :=
  Rect.mk (Int.add (cv.Rect.x (Detection.box b)) (cv.Rect.x rect))
          (Int.add (cv.Rect.y (Detection.box b)) (cv.Rect.y rect))
          (cv.Rect.width (Detection.box b))
          (cv.Rect.height (Detection.box b))
          (Detection.confidence b).

(** The pixels a crop by [rect] shows: none once a side is not positive. *)
Definition cropped (r : Raster) (rect : cv.Rect.t) : Raster :=
  if (cv.Rect.height rect <=? 0) || (cv.Rect.width rect <=? 0) then []
  else block r (cv.Rect.x rect) (cv.Rect.y rect)
               (cv.Rect.width rect) (cv.Rect.height rect).

Section Pipeline.

(** The codec behind [cv::imdecode]. *)
Variable decode : list Byte.byte -> Decoded.

(** The detector behind [Inference::runInference]: from the thresholds it
    holds and the pixels it is shown. *)
Variable infer : Thresholds.t -> Raster -> Inferred.

(** [cv::imdecode(buf, cv::IMREAD_COLOR)]: a matrix over a new buffer, or
    the empty matrix. *)
Definition imdecode (buf : list Byte.byte) : M cv.Mat.t :=
  emit (EvImdecode buf) ;;;
  match decode buf with
  | DecThrow => raise CvException
  | DecEmpty => ret cv.Mat.none
  | DecImage r =>
      if (0 <? raster_rows r) && (0 <? raster_cols r) then
        let! b := alloc r in
        ret (cv.Mat.mk (Some b) 0 0 (raster_rows r) (raster_cols r))
      else ret cv.Mat.none
  end.

(** [m(r)]: the assertion, then a header on the same buffer. *)
Definition roi (m : cv.Mat.t) (r : cv.Rect.t) : M cv.Mat.t :=
  emit (EvRoi r) ;;;
  if cv.Mat.roi_ok m r then ret (cv.Mat.view m r) else raise CvException.

(** [m.clone()]: the shown pixels copied to a buffer of their own. *)
Definition clone (m : cv.Mat.t) : M cv.Mat.t :=
  emit (EvClone m) ;;;
  if cv.Mat.empty m then ret cv.Mat.none
  else
    let! px := shown m in
    let! b := alloc px in
    ret (cv.Mat.mk (Some b) 0 0 (cv.Mat.rows m) (cv.Mat.cols m)).

(** Modelled from the spec: [Inference::setThresholds] is not among the
    sources; it configures the three thresholds of the detector for the
    calls that follow. *)
Definition setThresholds (conf score nms : float) : M unit :=
  emit (EvSetThresholds conf score nms) ;;;
  fun w => (Ok tt, mkWorld (heap w) (Thresholds.mk conf score nms)
                           (trace w) (args w)).

(** Modelled from the spec: [Inference::runInference] is not among the
    sources; it is the black box from an image to a list of detections.
    It may throw, and it may write to the buffer it is handed. *)
Definition runInference (src : cv.Mat.t) : M (list Detection.t) :=
  emit (EvRunInference src) ;;;
  let! px := shown src in
  fun w =>
    let r := infer (inf w) px in
    (overwrite src (input_after r) ;;;
     match output r with
     | Some dets => ret dets
     | None => raise InferenceException
     end) w.

(** [PersonCounter::detectHeads]. *)
Definition detectHeads : M (list Rect.t) :=
  let! jpeg := arg jpegData in
  let! img := imdecode jpeg in
  if cv.Mat.empty img then
    spdlog_error "Failed to decode JPEG data." ;;;
    ret []
  else
    let width := cv.Mat.cols img in
    let height := cv.Mat.rows img in
    let! vs := arg vertices in
    let tgtRect := getTgtRect vs width height in
    let! view := roi img tgtRect in
    let! src := clone view in
    let! th := arg thresholds in
    setThresholds (Thresholds.confidenceThreshold th)
                  (Thresholds.scoreThreshold th)
                  (Thresholds.nmsThreshold th) ;;;
    let! output := runInference src in
    let detections := Int.wrap (Z.of_nat (length output)) in
    spdlog_trace "Number of detections: {}" detections ;;;
    ret (translate_from tgtRect output 0 (Z.to_nat detections) []).

(** A call: the reference parameters bound to the caller's objects. *)
Definition call (jpeg : list Byte.byte) (vs : list OBJPos.t)
    (th : Thresholds.t) (w : World) : Res (list Rect.t) * World :=
  detectHeads (mkWorld (heap w) (inf w) (trace w) (mkArgs jpeg vs th)).

End Pipeline.

(** ** Names for the stages of a run *)

(** [imdecode] returns the empty matrix. *)
Definition no_image (decode : list Byte.byte -> Decoded)
    (jpeg : list Byte.byte) : Prop :=
  decode jpeg = DecEmpty
  ∨ ∃ r, decode jpeg = DecImage r
         ∧ (0 <? raster_rows r) && (0 <? raster_cols r) = false.

(** [imdecode] returns the image [r], of positive width and height. *)
Definition image_of (decode : list Byte.byte -> Decoded)
    (jpeg : list Byte.byte) (r : Raster) : Prop :=
  decode jpeg = DecImage r ∧ 0 < raster_rows r ∧ 0 < raster_cols r.

(** The header [imdecode] returns for an image decoded in world [w]. *)
Definition decoded_mat (w : World) (r : Raster) : cv.Mat.t :=
  cv.Mat.mk (Some (length (heap w))) 0 0 (raster_rows r) (raster_cols r).

(** The header handed to the detector: the clone of the view. *)
Definition src_mat (w : World) (rect : cv.Rect.t) : cv.Mat.t :=
  if (cv.Rect.height rect <=? 0) || (cv.Rect.width rect <=? 0)
  then cv.Mat.none
  else cv.Mat.mk (Some (S (length (heap w)))) 0 0
                 (cv.Rect.height rect) (cv.Rect.width rect).

(** The store once the detector has run on the clone. *)
Definition heap_after (w : World) (r : Raster) (rect : cv.Rect.t)
    (out : Inferred) : list Raster :=
  if (cv.Rect.height rect <=? 0) || (cv.Rect.width rect <=? 0)
  then heap w ++ [r]
  else heap w ++ [r; input_after out].

(** The calls of a run up to the detector. *)
Definition calls_to_detector (jpeg : list Byte.byte) (th : Thresholds.t)
    (w : World) (r : Raster) (rect : cv.Rect.t) : list Event :=
  [ EvImdecode jpeg;
    EvRoi rect;
    EvClone (cv.Mat.view (decoded_mat w r) rect);
    EvSetThresholds (Thresholds.confidenceThreshold th)
                    (Thresholds.scoreThreshold th)
                    (Thresholds.nmsThreshold th);
    EvRunInference (src_mat w rect) ].

(** ** Observations on a run *)

Definition is_roi (e : Event) : bool :=
  match e with EvRoi _ => true | _ => false end.

Definition is_inference (e : Event) : bool :=
  match e with EvRunInference _ => true | _ => false end.

Definition failed {A} (r : Res A) : bool :=
  match r with Throw _ => true | Ok _ => false end.

(** The events a run added to the trace of the world it started in. *)
Definition events (w : World) (run : Res (list Rect.t) * World) : list Event :=
  drop (length (trace w)) (trace (snd run)).

(** The run fails, and fails before any crop is attempted. *)
Definition rejected_before_crop (w : World) (run : Res (list Rect.t) * World)
  : Prop :=
  failed (fst run) = true ∧ existsb is_roi (events w run) = false.

(** A failed run whose result differs from the result of run [good]. *)
Definition distinguishable_failure (bad good : Res (list Rect.t) * World)
  : Prop :=
  failed (fst bad) = true ∧ fst bad ≠ fst good.

(** The run fails, and fails before the detector is called. *)
Definition rejected_before_detector (w : World)
    (run : Res (list Rect.t) * World) : Prop :=
  failed (fst run) = true ∧ existsb is_inference (events w run) = false.

(** ** Stand-ins for the codec and the detector *)

Module Stub.

Definition grey (b : Byte.byte) : pixel := (b, b, b).

(** A 4x4 image with sixteen different pixels. *)
Definition image : Raster :=
  [ [grey Byte.x00; grey Byte.x01; grey Byte.x02; grey Byte.x03];
    [grey Byte.x10; grey Byte.x11; grey Byte.x12; grey Byte.x13];
    [grey Byte.x20; grey Byte.x21; grey Byte.x22; grey Byte.x23];
    [grey Byte.x30; grey Byte.x31; grey Byte.x32; grey Byte.x33] ].

(** A codec: a buffer that opens with the JPEG marker FF D8 decodes to
    [image], the empty buffer trips an assertion, and any other buffer
    gives the empty matrix. *)
Definition decode (buf : list Byte.byte) : Decoded :=
  match buf with
  | [] => DecThrow
  | Byte.xff :: Byte.xd8 :: _ => DecImage image
  | _ => DecEmpty
  end.

Definition jpeg : list Byte.byte := [Byte.xff; Byte.xd8; Byte.xff; Byte.xd9].
Definition garbage : list Byte.byte := [Byte.x68; Byte.x69].

(** A detector that returns canned boxes, whatever it is shown, and
    paints over the pixels it was handed. *)
Definition canned (dets : list Detection.t) (_ : Thresholds.t) (px : Raster)
  : Inferred :=
  mkInferred (Some dets) (map (map (fun _ => grey Byte.xff)) px).

(** A detector that always throws. *)
Definition broken (_ : Thresholds.t) (px : Raster) : Inferred :=
  mkInferred None px.

(** 0.5f and 0.2f. *)
Definition half : float := 1056964608.
Definition fifth : float := 1045220557.

Definition head : Detection.t :=
  Detection.mk (cv.Rect.mk 1 0 2 2) half.

(** A box in the lower right corner of a 3x3 crop. *)
Definition corner_head : Detection.t :=
  Detection.mk (cv.Rect.mk 2 2 1 1) half.

Definition defaults : Thresholds.t := Thresholds.mk fifth fifth fifth.

(** A world before any call: no buffer, no event. *)
Definition start : World :=
  mkWorld [] (Thresholds.mk 0 0 0) [] (mkArgs [] [] (Thresholds.mk 0 0 0)).

Definition square : list OBJPos.t :=
  [OBJPos.mk 1 1; OBJPos.mk 3 1; OBJPos.mk 3 3; OBJPos.mk 1 3].

(** A triangle; its bounding rectangle is (0,0,3,3), and the point (2,2)
    lies in the rectangle but not in the triangle. *)
Definition triangle : list OBJPos.t :=
  [OBJPos.mk 0 0; OBJPos.mk 3 0; OBJPos.mk 0 3].

End Stub.

(** ** Bounds on coordinates *)

(** A coordinate small enough for [rbx - ltx] and [rby - lty] to stay in
    32 bits, whatever the other coordinates: 30 bits and a sign. *)
Definition modest (z : Z) : Prop := -1073741823 <= z <= 1073741823.

(** Every coordinate of every vertex is an [int]. *)
Definition int_vertices (vertices : list OBJPos.t) : Prop :=
  ∀ p, p ∈ vertices → Int.in_range (OBJPos.x p) ∧ Int.in_range (OBJPos.y p).

(** Every row of the raster has the width of the first. *)
Definition rectangular (r : Raster) : Prop :=
  ∀ row, row ∈ r → Z.of_nat (length row) = raster_cols r.

(** ** The command-line program *)

(** What [main] writes and draws, in order: lines on [std::cout] (with the
    number streamed after the text, if any) and [std::cerr], the two
    drawing calls on the image (colour, thickness and font are constants
    and left out; the drawing is recorded, not rendered), and the image
    file. *)
Inductive Output : Type :=
| Cout (msg : string) (n : option Z)
| Cerr (msg : string)
| Rectangle (pt1 pt2 : Z * Z)
| PutText (text : string) (org : Z * Z)
| Imwrite (path : string).

(** A regular file that [std::ifstream] could open ([tellg] gives its
    size): the bytes in [jpgdata] after [file.read], and whether the read
    succeeded. *)
Record File : Type := mkFile { bytes : list Byte.byte; read_ok : bool }.

(** The float literal [0.2f]. *)
Definition point_two : float := 1045220557.

Section Main.

Variable decode : list Byte.byte -> Decoded.
Variable infer : Thresholds.t -> Raster -> Inferred.

(** The file system behind [std::ifstream]: [None] when the file cannot be
    opened. *)
Variable open_file : string -> option File.

(** What [std::make_shared<PersonCounter>()] does: [None] when the object is
    constructed, the exception otherwise (the constructor of [Inference] is
    not among the sources). *)
Variable new_PersonCounter : option exn.

(** [snprintf(text, sizeof(text), "%.2f", head.confidence)]. *)
Variable format_confidence : float -> string.

(** The body of [for (auto &&head : heads)]. *)
Definition draw_head (head : Rect.t) : list Output :=
  [ Rectangle (Rect.x head, Rect.y head)
              (Int.add (Rect.x head) (Rect.width head),
               Int.add (Rect.y head) (Rect.height head));
    PutText (format_confidence (Rect.confidence head))
            (Rect.x head, Int.sub (Rect.y head) 10) ].

Definition draw (heads : list Rect.t) : list Output :=
  flat_map draw_head heads.

(** [main] from the comment that opens its main part, with the image path
    and the lines written so far. *)
Definition main_part (imagepath : string) (out : list Output) (w : World)
  : Res Z * World * list Output :=
  match open_file imagepath with
  | None =>
      (Ok 1, w, out ++ [Cerr (String.append "can not open file: " imagepath)])
  | Some file =>
      let size := Z.of_nat (length (bytes file)) in
      let jpgdata := bytes file in
      let out :=
        out ++ [if read_ok file
                then Cout "Loading successful. Bytes: " (Some size)
                else Cerr "Loading failed."] in
      match imdecode decode jpgdata w with
      | (Throw e, w) => (Throw e, w, out)
      | (Ok img, w) =>
          if cv.Mat.empty img then
            (Ok 1, w, out ++ [Cerr "Failed to decode image."])
          else
            let width := cv.Mat.cols img in
            let height := cv.Mat.rows img in
            let vertices :=
              [ OBJPos.mk 0 0; OBJPos.mk width 0;
                OBJPos.mk width height; OBJPos.mk 0 height ] in
            let thresholds := Thresholds.mk point_two point_two point_two in
            let out := out ++ [Cout "Person Counter is running..." None] in
            match new_PersonCounter with
            | Some e => (Throw e, w, out)
            | None =>
                match call decode infer jpgdata vertices thresholds w with
                | (Throw e, w) => (Throw e, w, out)
                | (Ok heads, w) =>
                    (Ok 0, w,
                     out ++ draw heads
                         ++ [Imwrite "output.jpg";
                             Cout "Output saved to output.jpg" None])
                end
            end
      end
  end.

(** [main]: [argv] holds the program name and the arguments. *)
Definition main (argv : list string) (w : World)
  : Res Z * World * list Output :=
  match argv !! 1%nat with
  | Some arg =>
      if String.eqb arg "--version" then
        (Ok 0, w, [Cout "Person Counter Version 1.0" None])
      else if String.eqb arg "--help" then
        (Ok 0, w,
         [Cout "Usage: person_counter [--version | --help | imagepath]" None])
      else
        main_part arg
          [Cout (String.append "Image path provided: " arg) None] w
  | None => main_part "" [] w
  end.

End Main.

(** The path [main] opens: none for [--version] and [--help], the first
    argument otherwise, and the empty path without an argument. *)
Definition image_path (argv : list string) : option string :=
  match argv !! 1%nat with
  | Some arg =>
      if String.eqb arg "--version" || String.eqb arg "--help" then None
      else Some arg
  | None => Some ""%string
  end.

(** The result for a detection of a crop at the origin: the box as it is. *)
Definition as_result (b : Detection.t) : Rect.t :=
  Rect.mk (cv.Rect.x (Detection.box b)) (cv.Rect.y (Detection.box b))
          (cv.Rect.width (Detection.box b)) (cv.Rect.height (Detection.box b))
          (Detection.confidence b).

(** ** Stand-ins for the file system *)

Module Disk.

(** A disk with an image, a text file and nothing else. *)
Definition open_file (path : string) : option File :=
  if String.eqb path "image.jpg" then Some (mkFile Stub.jpeg true)
  else if String.eqb path "notes.txt" then Some (mkFile Stub.garbage true)
  else None.

(** Two decimals are not computed here: every confidence prints the same. *)
Definition format_confidence (_ : float) : string := "0.50".

End Disk.

(** A line on the console, as opposed to a drawing or a file. *)
Definition console (o : Output) : bool :=
  match o with
  | Cout _ _ | Cerr _ => true
  | _ => false
  end.

(** * Facts *)

Module IntFacts.

Lemma wrap_in_range z : Int.in_range z → Int.wrap z = z.
Proof.
  unfold Int.in_range, Int.wrap, Int.min_int, Int.max_int. intros Hz.
  rewrite Z.mod_small by lia. lia.
Qed.

Lemma add_exact a b : Int.in_range (a + b) → Int.add a b = a + b.
Proof. apply wrap_in_range. Qed.

Lemma sub_exact a b : Int.in_range (a - b) → Int.sub a b = a - b.
Proof. apply wrap_in_range. Qed.

(** Adding back what was subtracted, both in 32 bits. *)
Lemma add_sub a b : Int.add a (Int.sub b a) = Int.wrap b.
Proof.
  unfold Int.add, Int.sub, Int.wrap. f_equal.
  replace (a + ((b - a + 2147483648) mod 4294967296 - 2147483648) + 2147483648)
    with (a + (b - a + 2147483648) mod 4294967296) by lia.
  rewrite Zplus_mod_idemp_r. f_equal. lia.
Qed.

End IntFacts.

(** *** The loop as four independent reductions *)

Lemma scan_ltx vs : ∀ c,
  ltx (fold_left scan_vertex vs c) = fold_left Z.min (xs vs) (ltx c).
Proof.
  induction vs as [|p vs IH]; intros c; simpl; [done|].
  rewrite IH. simpl. f_equal.
  destruct (Z.gtb_spec (ltx c) (OBJPos.x p)); lia.
Qed.

Lemma scan_lty vs : ∀ c,
  lty (fold_left scan_vertex vs c) = fold_left Z.min (ys vs) (lty c).
Proof.
  induction vs as [|p vs IH]; intros c; simpl; [done|].
  rewrite IH. simpl. f_equal.
  destruct (Z.gtb_spec (lty c) (OBJPos.y p)); lia.
Qed.

Lemma scan_rbx vs : ∀ c,
  rbx (fold_left scan_vertex vs c) = fold_left Z.max (xs vs) (rbx c).
Proof.
  induction vs as [|p vs IH]; intros c; simpl; [done|].
  rewrite IH. simpl. f_equal.
  destruct (Z.ltb_spec (rbx c) (OBJPos.x p)); lia.
Qed.

Lemma scan_rby vs : ∀ c,
  rby (fold_left scan_vertex vs c) = fold_left Z.max (ys vs) (rby c).
Proof.
  induction vs as [|p vs IH]; intros c; simpl; [done|].
  rewrite IH. simpl. f_equal.
  destruct (Z.ltb_spec (rby c) (OBJPos.y p)); lia.
Qed.

(** *** Facts on the two reductions *)

Lemma fold_min_le_seed l : ∀ s, fold_left Z.min l s <= s.
Proof.
  induction l as [|a l IH]; intros s; simpl; [lia|].
  specialize (IH (Z.min s a)). lia.
Qed.

Lemma fold_min_lower l : ∀ s z, z ∈ l → fold_left Z.min l s <= z.
Proof.
  induction l as [|a l IH]; intros s z Hz; simpl.
  - by apply elem_of_nil in Hz.
  - apply elem_of_cons in Hz as [->|Hz].
    + pose proof (fold_min_le_seed l (Z.min s a)). lia.
    + by apply IH.
Qed.

Lemma fold_min_attained l : ∀ s,
  fold_left Z.min l s = s ∨ fold_left Z.min l s ∈ l.
Proof.
  induction l as [|a l IH]; intros s; simpl; [by left|].
  destruct (IH (Z.min s a)) as [E|E].
  - rewrite E. destruct (Z.min_spec s a) as [[_ ->]|[_ ->]].
    + by left.
    + right. apply elem_of_cons. by left.
  - right. apply elem_of_cons. by right.
Qed.

Lemma fold_max_ge_seed l : ∀ s, s <= fold_left Z.max l s.
Proof.
  induction l as [|a l IH]; intros s; simpl; [lia|].
  specialize (IH (Z.max s a)). lia.
Qed.

Lemma fold_max_upper l : ∀ s z, z ∈ l → z <= fold_left Z.max l s.
Proof.
  induction l as [|a l IH]; intros s z Hz; simpl.
  - by apply elem_of_nil in Hz.
  - apply elem_of_cons in Hz as [->|Hz].
    + pose proof (fold_max_ge_seed l (Z.max s a)). lia.
    + by apply IH.
Qed.

Lemma fold_max_attained l : ∀ s,
  fold_left Z.max l s = s ∨ fold_left Z.max l s ∈ l.
Proof.
  induction l as [|a l IH]; intros s; simpl; [by left|].
  destruct (IH (Z.max s a)) as [E|E].
  - rewrite E. destruct (Z.max_spec s a) as [[_ ->]|[_ ->]].
    + right. apply elem_of_cons. by left.
    + by left.
  - right. apply elem_of_cons. by right.
Qed.

(** A seed that is no smaller than every element is absorbed by a non-empty
    list: the reduction is then the least element. *)
Lemma fold_min_is_min l s :
  l ≠ [] → (∀ z, z ∈ l → z <= s) → is_min (fold_left Z.min l s) l.
Proof.
  intros Hne Hs. split; [|intros z; apply fold_min_lower].
  destruct (fold_min_attained l s) as [E|E]; [|done].
  destruct l as [|a l]; [done|]. clear Hne.
  assert (a ∈ a :: l) as Ha by (apply elem_of_cons; by left).
  pose proof (fold_min_lower _ s _ Ha). pose proof (Hs _ Ha).
  replace (fold_left Z.min (a :: l) s) with a by lia. done.
Qed.

Lemma fold_max_is_max l s :
  l ≠ [] → (∀ z, z ∈ l → s <= z) → is_max (fold_left Z.max l s) l.
Proof.
  intros Hne Hs. split; [|intros z; apply fold_max_upper].
  destruct (fold_max_attained l s) as [E|E]; [|done].
  destruct l as [|a l]; [done|]. clear Hne.
  assert (a ∈ a :: l) as Ha by (apply elem_of_cons; by left).
  pose proof (fold_max_upper _ s _ Ha). pose proof (Hs _ Ha).
  replace (fold_left Z.max (a :: l) s) with a by lia. done.
Qed.

Lemma elem_of_xs p vs : p ∈ vs → OBJPos.x p ∈ xs vs.
Proof. intros. unfold xs. apply list_elem_of_fmap. by exists p. Qed.

Lemma elem_of_ys p vs : p ∈ vs → OBJPos.y p ∈ ys vs.
Proof. intros. unfold ys. apply list_elem_of_fmap. by exists p. Qed.

Lemma xs_inv z vs : z ∈ xs vs → ∃ p, p ∈ vs ∧ z = OBJPos.x p.
Proof. unfold xs. intros H. apply list_elem_of_fmap in H as (p & -> & ?). eauto. Qed.

Lemma ys_inv z vs : z ∈ ys vs → ∃ p, p ∈ vs ∧ z = OBJPos.y p.
Proof. unfold ys. intros H. apply list_elem_of_fmap in H as (p & -> & ?). eauto. Qed.

(** ** The store of buffers *)

Lemma block_again (r : Raster) x y w h :
  block (block r x y w h) 0 0 w h = block r x y w h.
Proof.
  unfold block. simpl. rewrite !drop_0.
  rewrite <- fmap_take, take_idemp, <- list_fmap_compose.
  apply list_fmap_ext. intros _ row _. simpl.
  by rewrite drop_0, take_idemp.
Qed.

Lemma heap_lookup_new (h : list Raster) r tl : (h ++ r :: tl) !! length h = Some r.
Proof. by apply list_lookup_middle. Qed.

Lemma heap_insert_second (h : list Raster) r r' v :
  <[S (length h) := v]> (h ++ [r; r']) = h ++ [r; v].
Proof.
  rewrite insert_app_r_alt by lia.
  replace (S (length h) - length h)%nat with 1%nat by lia. done.
Qed.

(** ** The translation loop *)

Lemma translate_from_spec rect (out : list Detection.t) :
  ∀ n i acc,
    translate_from rect out i n acc
    = acc ++ (translated rect <$> take n (drop i out)).
Proof.
  induction n as [|n IH]; intros i acc; simpl.
  - by rewrite app_nil_r.
  - destruct (out !! i) as [d|] eqn:E.
    + rewrite IH, (drop_S _ _ _ E). simpl. by rewrite <- app_assoc.
    + apply lookup_ge_None in E. rewrite drop_ge by done.
      by rewrite take_nil, app_nil_r.
Qed.

Lemma translate_all rect (out : list Detection.t) :
  Z.of_nat (length out) <= Int.max_int →
  translate_from rect out 0 (Z.to_nat (Int.wrap (Z.of_nat (length out)))) []
  = translated rect <$> out.
Proof.
  intros Hlen. rewrite IntFacts.wrap_in_range, Nat2Z.id.
  - rewrite translate_from_spec, drop_0. simpl. by rewrite firstn_all.
  - unfold Int.in_range, Int.min_int. lia.
Qed.

(** ** The bounding rectangle *)

(** With all vertices at non-negative coordinates the right and bottom
    edges are the greatest coordinates, whatever the image size. *)
Lemma getTgtRect_far_edges vs w h :
  vs ≠ [] → 0 <= w → 0 <= h →
  (∀ p, p ∈ vs → 0 <= OBJPos.x p <= Int.max_int ∧ 0 <= OBJPos.y p <= Int.max_int) →
  let rect := getTgtRect vs w h in
  is_max (cv.Rect.x rect + cv.Rect.width rect) (xs vs)
  ∧ is_max (cv.Rect.y rect + cv.Rect.height rect) (ys vs).
Proof.
  intros Hne Hw Hh Hvs rect. subst rect. unfold getTgtRect. simpl.
  rewrite scan_ltx, scan_lty, scan_rbx, scan_rby. simpl.
  assert (xs vs ≠ []) as Hxs by (destruct vs; done).
  assert (ys vs ≠ []) as Hys by (destruct vs; done).
  assert (∀ z, z ∈ xs vs → 0 <= z <= Int.max_int) as Hx.
  { intros z Hz. apply xs_inv in Hz as (p & Hp & ->). by apply Hvs. }
  assert (∀ z, z ∈ ys vs → 0 <= z <= Int.max_int) as Hy.
  { intros z Hz. apply ys_inv in Hz as (p & Hp & ->). by apply Hvs. }
  pose proof (fold_max_is_max (xs vs) 0 Hxs (λ z Hz, proj1 (Hx z Hz))) as Mx.
  pose proof (fold_max_is_max (ys vs) 0 Hys (λ z Hz, proj1 (Hy z Hz))) as My.
  set (mx := fold_left Z.max (xs vs) 0) in *.
  set (my := fold_left Z.max (ys vs) 0) in *.
  pose proof (Hx _ (proj1 Mx)). pose proof (Hy _ (proj1 My)).
  (* the left and top accumulators lie between 0 and the far edge *)
  assert (0 <= fold_left Z.min (xs vs) w <= mx) as Lx.
  { split.
    - destruct (fold_min_attained (xs vs) w) as [->|E]; [done|]. by apply Hx.
    - apply fold_min_lower, Mx. }
  assert (0 <= fold_left Z.min (ys vs) h <= my) as Ly.
  { split.
    - destruct (fold_min_attained (ys vs) h) as [->|E]; [done|]. by apply Hy.
    - apply fold_min_lower, My. }
  rewrite !IntFacts.sub_exact
    by (unfold Int.in_range, Int.min_int, Int.max_int in *; lia).
  split.
  - by replace (fold_left Z.min (xs vs) w + (mx - fold_left Z.min (xs vs) w))
      with mx by lia.
  - by replace (fold_left Z.min (ys vs) h + (my - fold_left Z.min (ys vs) h))
      with my by lia.
Qed.

Lemma within_nonneg w h vs :
  within w h vs → w <= Int.max_int → h <= Int.max_int →
  ∀ p, p ∈ vs → 0 <= OBJPos.x p <= Int.max_int ∧ 0 <= OBJPos.y p <= Int.max_int.
Proof. intros Hin ?? p Hp. specialize (Hin p Hp). lia. Qed.

Lemma within_nonempty_size w h vs : vs ≠ [] → within w h vs → 0 <= w ∧ 0 <= h.
Proof.
  destruct vs as [|p vs]; [done|]. intros _ Hin.
  assert (p ∈ p :: vs) as Hp by (apply elem_of_cons; by left).
  specialize (Hin p Hp). lia.
Qed.

(** C2: for a non-empty vertex sequence inside the image, [getTgtRect] is the
    least axis-aligned rectangle over the vertices: its origin is the least
    x and the least y, its far edges the greatest x and the greatest y, so
    that width and height are greatest minus least; the four corners
    (10,20), (100,20), (100,80), (10,80) give (10,20,90,60). *)
Theorem getTgtRect_bounding vs w h :
  vs ≠ [] → within w h vs → w <= Int.max_int → h <= Int.max_int →
  let rect := getTgtRect vs w h in
  (is_min (cv.Rect.x rect) (xs vs) ∧ is_min (cv.Rect.y rect) (ys vs))
  ∧ (∃ mx my, is_max mx (xs vs) ∧ is_max my (ys vs)
        ∧ cv.Rect.width rect = mx - cv.Rect.x rect
        ∧ cv.Rect.height rect = my - cv.Rect.y rect)
  ∧ (100 <= w → 80 <= h →
     getTgtRect [OBJPos.mk 10 20; OBJPos.mk 100 20;
                 OBJPos.mk 100 80; OBJPos.mk 10 80] w h
     = cv.Rect.mk 10 20 90 60).
Proof.
  intros Hne Hin Hw Hh rect.
  destruct (within_nonempty_size w h vs Hne Hin) as [Hw0 Hh0].
  pose proof (getTgtRect_far_edges vs w h Hne Hw0 Hh0
                (within_nonneg w h vs Hin Hw Hh)) as [Fx Fy].
  fold rect in Fx, Fy.
  assert (xs vs ≠ []) as Hxs by (destruct vs; done).
  assert (ys vs ≠ []) as Hys by (destruct vs; done).
  split; [split|split].
  - subst rect. unfold getTgtRect. simpl. rewrite scan_ltx. simpl.
    apply fold_min_is_min; [done|].
    intros z Hz. apply xs_inv in Hz as (p & Hp & ->). by apply Hin.
  - subst rect. unfold getTgtRect. simpl. rewrite scan_lty. simpl.
    apply fold_min_is_min; [done|].
    intros z Hz. apply ys_inv in Hz as (p & Hp & ->). by apply Hin.
  - exists (cv.Rect.x rect + cv.Rect.width rect),
           (cv.Rect.y rect + cv.Rect.height rect).
    repeat split; try apply Fx; try apply Fy; lia.
  - intros Hw' Hh'. unfold getTgtRect. simpl.
    destruct (Z.gtb_spec w 10); [|lia]. destruct (Z.gtb_spec h 20); [|lia].
    done.
Qed.

(** The claim at the corners of the spec's example, in a 640x480 image. *)
Lemma getTgtRect_bounding_witness :
  let vs := [OBJPos.mk 10 20; OBJPos.mk 100 20;
             OBJPos.mk 100 80; OBJPos.mk 10 80] in
  is_min 10 (xs vs) ∧ is_min 20 (ys vs)
  ∧ getTgtRect vs 640 480 = cv.Rect.mk 10 20 90 60.
Proof.
  intros vs.
  assert (vs ≠ []) as Hne by done.
  assert (within 640 480 vs) as Hin.
  { intros p Hp. unfold vs in Hp.
    repeat (apply elem_of_cons in Hp as [->|Hp]); simpl; try lia.
    by apply elem_of_nil in Hp. }
  assert (640 <= Int.max_int) as Hw by (unfold Int.max_int; lia).
  assert (480 <= Int.max_int) as Hh by (unfold Int.max_int; lia).
  destruct (getTgtRect_bounding vs 640 480 Hne Hin Hw Hh) as [[Mx My] [_ Ex]].
  split; [exact Mx|]. split; [exact My|]. apply Ex; lia.
Defined.

(** C6: the image size only seeds the two least-coordinate accumulators and
    the result is not clamped to the image: the origin is the least of the
    seed and the coordinates, the far edges are the greatest coordinates
    whatever the image size, so a vertex beyond the image puts the far edge
    beyond it; the vertices (1,1), (9,2) in a 4x4 image give a rectangle
    whose right edge is 9. *)
Theorem getTgtRect_not_clamped vs w h :
  vs ≠ [] → 0 <= w → 0 <= h →
  (∀ p, p ∈ vs → 0 <= OBJPos.x p <= Int.max_int ∧ 0 <= OBJPos.y p <= Int.max_int) →
  let rect := getTgtRect vs w h in
  (cv.Rect.x rect = fold_left Z.min (xs vs) w
   ∧ cv.Rect.y rect = fold_left Z.min (ys vs) h)
  ∧ (is_max (cv.Rect.x rect + cv.Rect.width rect) (xs vs)
     ∧ is_max (cv.Rect.y rect + cv.Rect.height rect) (ys vs))
  ∧ (∀ p, p ∈ vs → w < OBJPos.x p → cv.Rect.x rect + cv.Rect.width rect > w)
  ∧ (∀ p, p ∈ vs → h < OBJPos.y p → cv.Rect.y rect + cv.Rect.height rect > h)
  ∧ (let r := getTgtRect [OBJPos.mk 1 1; OBJPos.mk 9 2] 4 4 in
     r = cv.Rect.mk 1 1 8 1 ∧ cv.Rect.x r + cv.Rect.width r > 4).
Proof.
  intros Hne Hw Hh Hvs rect.
  pose proof (getTgtRect_far_edges vs w h Hne Hw Hh Hvs) as [Fx Fy].
  fold rect in Fx, Fy.
  split; [|split; [done|split; [|split]]].
  - subst rect. unfold getTgtRect. simpl. by rewrite scan_ltx, scan_lty.
  - intros p Hp Hlt. pose proof (proj2 Fx _ (elem_of_xs _ _ Hp)). lia.
  - intros p Hp Hlt. pose proof (proj2 Fy _ (elem_of_ys _ _ Hp)). lia.
  - simpl. split; [reflexivity|]. vm_compute. reflexivity.
Qed.

(** The claim at the vertices (1,1), (9,2) of a 4x4 image. *)
Lemma getTgtRect_not_clamped_witness :
  let rect := getTgtRect [OBJPos.mk 1 1; OBJPos.mk 9 2] 4 4 in
  cv.Rect.x rect + cv.Rect.width rect > 4.
Proof.
  intros rect.
  assert ([OBJPos.mk 1 1; OBJPos.mk 9 2] ≠ []) as Hne by done.
  assert (∀ p, p ∈ [OBJPos.mk 1 1; OBJPos.mk 9 2] →
            0 <= OBJPos.x p <= Int.max_int ∧ 0 <= OBJPos.y p <= Int.max_int)
    as Hvs.
  { intros p Hp. unfold Int.max_int.
    repeat (apply elem_of_cons in Hp as [->|Hp]); simpl; try lia.
    by apply elem_of_nil in Hp. }
  destruct (getTgtRect_not_clamped _ 4 4 Hne ltac:(lia) ltac:(lia) Hvs)
    as (_ & _ & Hx & _).
  apply (Hx (OBJPos.mk 9 2)); simpl; [|lia].
  apply elem_of_cons. right. apply elem_of_cons. by left.
Defined.

(** ** The four paths through [detectHeads] *)

Section Paths.

Variable decode : list Byte.byte → Decoded.
Variable infer : Thresholds.t → Raster → Inferred.

#[local] Arguments getTgtRect : simpl never.

Implicit Types (jpeg : list Byte.byte) (vs : list OBJPos.t)
  (th : Thresholds.t) (w : World) (r : Raster).

Lemma call_decode_throws jpeg vs th w :
  decode jpeg = DecThrow →
  call decode infer jpeg vs th w
  = (Throw CvException,
     mkWorld (heap w) (inf w) (trace w ++ [EvImdecode jpeg])
             (mkArgs jpeg vs th)).
Proof.
  intros Hd. unfold call, detectHeads, imdecode, bind, arg, emit, raise.
  simpl. by rewrite Hd.
Qed.

Lemma call_no_image jpeg vs th w :
  no_image decode jpeg →
  call decode infer jpeg vs th w
  = (Ok [],
     mkWorld (heap w) (inf w)
             (trace w ++ [EvImdecode jpeg;
                          EvLog LvError "Failed to decode JPEG data." None])
             (mkArgs jpeg vs th)).
Proof.
  intros [Hd|(r & Hd & Hz)];
    unfold call, detectHeads, imdecode, bind, arg, emit, ret, spdlog_error;
    simpl; rewrite Hd; [|rewrite Hz]; simpl; by rewrite <- app_assoc.
Qed.

Lemma decoded_not_empty w r :
  0 < raster_rows r → 0 < raster_cols r →
  cv.Mat.empty (decoded_mat w r) = false.
Proof. intros. unfold cv.Mat.empty. simpl. apply Z.eqb_neq. nia. Qed.

Lemma call_roi_fails jpeg vs th w r :
  image_of decode jpeg r →
  let rect := getTgtRect vs (raster_cols r) (raster_rows r) in
  cv.Mat.roi_ok (decoded_mat w r) rect = false →
  call decode infer jpeg vs th w
  = (Throw CvException,
     mkWorld (heap w ++ [r]) (inf w)
             (trace w ++ [EvImdecode jpeg; EvRoi rect])
             (mkArgs jpeg vs th)).
Proof.
  intros (Hd & Hr & Hc) rect Hroi.
  pose proof (decoded_not_empty w r Hr Hc) as He.
  unfold call, detectHeads, imdecode, roi, bind, arg, emit, ret, raise, alloc.
  simpl. rewrite Hd.
  replace ((0 <? raster_rows r) && (0 <? raster_cols r)) with true
    by (symmetry; apply andb_true_iff; split; apply Z.ltb_lt; lia).
  simpl. fold (decoded_mat w r). rewrite He. simpl.
  fold rect. rewrite Hroi. by rewrite <- app_assoc.
Qed.

Lemma call_reaches_detector jpeg vs th w r :
  image_of decode jpeg r →
  let rect := getTgtRect vs (raster_cols r) (raster_rows r) in
  cv.Mat.roi_ok (decoded_mat w r) rect = true →
  let out := infer th (cropped r rect) in
  call decode infer jpeg vs th w
  = match output out with
    | Some dets =>
        let detections := Int.wrap (Z.of_nat (length dets)) in
        (Ok (translate_from rect dets 0 (Z.to_nat detections) []),
         mkWorld (heap_after w r rect out) th
                 (trace w ++ calls_to_detector jpeg th w r rect
                    ++ [EvLog LvTrace "Number of detections: {}"
                              (Some detections)])
                 (mkArgs jpeg vs th))
    | None =>
        (Throw InferenceException,
         mkWorld (heap_after w r rect out) th
                 (trace w ++ calls_to_detector jpeg th w r rect)
                 (mkArgs jpeg vs th))
    end.
Proof.
  destruct th as [conf score nms]. intros (Hd & Hr & Hc) rect Hroi out.
  pose proof (decoded_not_empty w r Hr Hc) as He.
  subst out. revert Hroi. subst rect.
  remember (getTgtRect vs (raster_cols r) (raster_rows r)) as rect eqn:Erect.
  intros Hroi.
  unfold call, detectHeads, imdecode, roi, clone, setThresholds, runInference,
    spdlog_trace, overwrite, shown, bind, arg, emit, ret, raise, alloc.
  simpl. rewrite Hd.
  replace ((0 <? raster_rows r) && (0 <? raster_cols r)) with true
    by (symmetry; apply andb_true_iff; split; apply Z.ltb_lt; lia).
  simpl. fold (decoded_mat w r). rewrite He. simpl.
  rewrite <- Erect, Hroi. clear Erect. simpl.
  unfold calls_to_detector, heap_after, src_mat, cropped.
  unfold cv.Mat.view, cv.Mat.empty.
  destruct ((cv.Rect.height rect <=? 0) || (cv.Rect.width rect <=? 0)) eqn:Hz.
  - simpl. destruct (output _); simpl;
      repeat rewrite <- app_assoc; done.
  - apply orb_false_iff in Hz as [Hh Hw].
    apply Z.leb_gt in Hh, Hw. simpl.
    replace (cv.Rect.height rect * cv.Rect.width rect =? 0) with false
      by (symmetry; apply Z.eqb_neq; nia).
    simpl. unfold cv.Mat.contents. simpl.
    rewrite !heap_lookup_new, length_app. simpl.
    replace (length (heap w) + 1)%nat with (S (length (heap w))) by lia.
    rewrite <- app_assoc. simpl. rewrite block_again.
    destruct (output _); simpl;
      rewrite heap_insert_second; repeat rewrite <- app_assoc; done.
Qed.

Lemma decode_cases jpeg :
  decode jpeg = DecThrow ∨ no_image decode jpeg
  ∨ ∃ r, image_of decode jpeg r.
Proof.
  unfold no_image, image_of. destruct (decode jpeg) as [r| |] eqn:E.
  - destruct ((0 <? raster_rows r) && (0 <? raster_cols r)) eqn:Hz.
    + apply andb_true_iff in Hz as [?%Z.ltb_lt ?%Z.ltb_lt]. right. right. eauto.
    + right. left. right. eauto.
  - right. left. by left.
  - by left.
Qed.

Lemma events_of_run w (res : Res (list Rect.t)) h i l a :
  events w (res, mkWorld h i (trace w ++ l) a) = l.
Proof. unfold events. simpl. apply drop_app_length. Qed.

(** What a run through the detector returns when the detector returns. *)
Lemma call_results jpeg vs th w r dets :
  image_of decode jpeg r →
  let rect := getTgtRect vs (raster_cols r) (raster_rows r) in
  cv.Mat.roi_ok (decoded_mat w r) rect = true →
  output (infer th (cropped r rect)) = Some dets →
  Z.of_nat (length dets) <= Int.max_int →
  fst (call decode infer jpeg vs th w) = Ok (translated rect <$> dets).
Proof.
  intros Him rect Hroi Hout Hlen.
  rewrite (call_reaches_detector jpeg vs th w r Him Hroi).
  fold rect. rewrite Hout. simpl. by rewrite translate_all.
Qed.

(** The rectangle of an empty vertex sequence, and its fate at the crop. *)
Lemma getTgtRect_nil (cw ch : Z) :
  0 < cw <= Int.max_int → 0 < ch <= Int.max_int →
  getTgtRect [] cw ch = cv.Rect.mk cw ch (- cw) (- ch).
Proof.
  intros Hw Hh. unfold getTgtRect. simpl.
  rewrite !IntFacts.sub_exact
    by (unfold Int.in_range, Int.min_int, Int.max_int in *; lia).
  done.
Qed.

Lemma roi_rejects_negative m (rect : cv.Rect.t) :
  cv.Rect.width rect < 0 → cv.Mat.roi_ok m rect = false.
Proof.
  intros Hneg. unfold cv.Mat.roi_ok.
  replace (0 <=? cv.Rect.width rect) with false
    by (symmetry; apply Z.leb_gt; lia).
  by rewrite andb_false_r.
Qed.

Lemma call_empty_vertices jpeg th w r :
  image_of decode jpeg r →
  raster_cols r <= Int.max_int → raster_rows r <= Int.max_int →
  call decode infer jpeg [] th w
  = (Throw CvException,
     mkWorld (heap w ++ [r]) (inf w)
             (trace w ++ [EvImdecode jpeg;
                          EvRoi (cv.Rect.mk (raster_cols r) (raster_rows r)
                                   (- raster_cols r) (- raster_rows r))])
             (mkArgs jpeg [] th)).
Proof.
  intros Him Hc Hr. pose proof Him as (_ & Hr0 & Hc0).
  rewrite (call_roi_fails jpeg [] th w r Him);
    rewrite getTgtRect_nil by lia; [done|].
  apply roi_rejects_negative. simpl. lia.
Qed.

(** C1: when the image decodes, the crop by the bounding rectangle [rect]
    is accepted and the detector returns [dets] for the cropped pixels,
    [detectHeads] returns one result per detection, and the result at the
    place of a detection [b] has x = b.x + rect.x and y = b.y + rect.y (the
    [int] sum, which is the exact sum whenever that is an [int]) while
    width, height and confidence are those of [b]. *)
Theorem detectHeads_translates jpeg vs th w r dets :
  image_of decode jpeg r →
  let rect := getTgtRect vs (raster_cols r) (raster_rows r) in
  cv.Mat.roi_ok (decoded_mat w r) rect = true →
  output (infer th (cropped r rect)) = Some dets →
  Z.of_nat (length dets) <= Int.max_int →
  ∃ results,
    fst (call decode infer jpeg vs th w) = Ok results
    ∧ length results = length dets
    ∧ ∀ (i : nat) (b : Detection.t), dets !! i = Some b →
        ∃ res, results !! i = Some res
          ∧ Rect.x res = Int.add (cv.Rect.x (Detection.box b)) (cv.Rect.x rect)
          ∧ Rect.y res = Int.add (cv.Rect.y (Detection.box b)) (cv.Rect.y rect)
          ∧ (Int.in_range (cv.Rect.x (Detection.box b) + cv.Rect.x rect) →
             Rect.x res = cv.Rect.x (Detection.box b) + cv.Rect.x rect)
          ∧ (Int.in_range (cv.Rect.y (Detection.box b) + cv.Rect.y rect) →
             Rect.y res = cv.Rect.y (Detection.box b) + cv.Rect.y rect)
          ∧ Rect.width res = cv.Rect.width (Detection.box b)
          ∧ Rect.height res = cv.Rect.height (Detection.box b)
          ∧ Rect.confidence res = Detection.confidence b.
Proof.
  intros Him rect Hroi Hout Hlen.
  exists (translated rect <$> dets). split; [|split].
  - by apply call_results.
  - by rewrite length_fmap.
  - intros i b Hb. exists (translated rect b). split.
    + by rewrite list_lookup_fmap, Hb.
    + simpl. repeat split; try done; apply IntFacts.add_exact.
Qed.

(** C9: the detections are not filtered against the polygon: under the
    conditions of C1 the results are the translated detections, one for
    each, in the detector's order, and a polygon with the same bounding
    rectangle gives the same results. *)
Theorem detectHeads_no_polygon_filter jpeg vs th w r dets :
  image_of decode jpeg r →
  let rect := getTgtRect vs (raster_cols r) (raster_rows r) in
  cv.Mat.roi_ok (decoded_mat w r) rect = true →
  output (infer th (cropped r rect)) = Some dets →
  Z.of_nat (length dets) <= Int.max_int →
  fst (call decode infer jpeg vs th w) = Ok (translated rect <$> dets)
  ∧ length (translated rect <$> dets) = length dets
  ∧ ∀ vs', getTgtRect vs' (raster_cols r) (raster_rows r) = rect →
      fst (call decode infer jpeg vs' th w)
      = fst (call decode infer jpeg vs th w).
Proof.
  intros Him rect Hroi Hout Hlen. split; [|split].
  - by apply call_results.
  - by rewrite length_fmap.
  - intros vs' Hrect.
    rewrite (call_results jpeg vs th w r dets Him Hroi Hout Hlen).
    fold rect. rewrite <- Hrect.
    apply call_results; rewrite ?Hrect; done.
Qed.

(** C3, amended: with an empty vertex sequence and an image that decodes,
    nothing is checked: the rectangle (w, h, -w, -h) goes to the crop, the
    crop's bounds assertion throws the image library's exception, which
    leaves [detectHeads]; no threshold is set and no detector is run. *)
Theorem empty_vertices_crop_throws jpeg th w r :
  image_of decode jpeg r →
  raster_cols r <= Int.max_int → raster_rows r <= Int.max_int →
  let run := call decode infer jpeg [] th w in
  fst run = Throw CvException
  ∧ events w run
    = [EvImdecode jpeg;
       EvRoi (cv.Rect.mk (raster_cols r) (raster_rows r)
                         (- raster_cols r) (- raster_rows r))]
  ∧ inf (snd run) = inf w
  ∧ existsb is_inference (events w run) = false.
Proof.
  intros Him Hc Hr run. subst run.
  rewrite (call_empty_vertices jpeg th w r Him Hc Hr).
  rewrite events_of_run. done.
Qed.

(** C10: for an empty vertex sequence and a decoded image of width w and
    height h, [getTgtRect] returns (w, h, -w, -h), of negative width and
    height, and the first thing [detectHeads] does after decoding is to
    crop by that rectangle. *)
Theorem empty_vertices_degenerate_rect jpeg th w r :
  image_of decode jpeg r →
  raster_cols r <= Int.max_int → raster_rows r <= Int.max_int →
  let rect := getTgtRect [] (raster_cols r) (raster_rows r) in
  rect = cv.Rect.mk (raster_cols r) (raster_rows r)
                    (- raster_cols r) (- raster_rows r)
  ∧ cv.Rect.width rect < 0 ∧ cv.Rect.height rect < 0
  ∧ take 2 (events w (call decode infer jpeg [] th w))
    = [EvImdecode jpeg; EvRoi rect].
Proof.
  intros Him Hc Hr rect. pose proof Him as (_ & Hr0 & Hc0).
  assert (rect = cv.Rect.mk (raster_cols r) (raster_rows r)
                            (- raster_cols r) (- raster_rows r)) as ->
    by (apply getTgtRect_nil; lia).
  simpl. repeat split; try lia.
  rewrite (call_empty_vertices jpeg th w r Him Hc Hr).
  by rewrite events_of_run.
Qed.

(** C4, amended: a bounding rectangle of width 0 or height 0 that the crop
    accepts is not rejected: the crop gives the empty matrix, the
    thresholds are set and the detector is run on the empty matrix; what
    the detector returns for no pixels is translated and returned, and
    what it throws leaves [detectHeads]. *)
Theorem zero_area_crop_reaches_detector jpeg vs th w r :
  image_of decode jpeg r →
  let rect := getTgtRect vs (raster_cols r) (raster_rows r) in
  cv.Mat.roi_ok (decoded_mat w r) rect = true →
  cv.Rect.width rect = 0 ∨ cv.Rect.height rect = 0 →
  let run := call decode infer jpeg vs th w in
  fst run
  = match output (infer th []) with
    | Some dets =>
        Ok (translate_from rect dets 0
              (Z.to_nat (Int.wrap (Z.of_nat (length dets)))) [])
    | None => Throw InferenceException
    end
  ∧ take 5 (events w run)
    = [EvImdecode jpeg; EvRoi rect; EvClone cv.Mat.none;
       EvSetThresholds (Thresholds.confidenceThreshold th)
                       (Thresholds.scoreThreshold th)
                       (Thresholds.nmsThreshold th);
       EvRunInference cv.Mat.none]
  ∧ existsb is_inference (events w run) = true.
Proof.
  intros Him rect Hroi Hzero run. subst run.
  rewrite (call_reaches_detector jpeg vs th w r Him Hroi). fold rect.
  assert ((cv.Rect.height rect <=? 0) || (cv.Rect.width rect <=? 0) = true)
    as Hz.
  { apply orb_true_iff. destruct Hzero as [E|E]; [right|left];
      apply Z.leb_le; lia. }
  unfold cropped, calls_to_detector, src_mat, cv.Mat.view. rewrite Hz.
  destruct (output (infer th [])); simpl; rewrite events_of_run; done.
Qed.

(** C5, amended: for a buffer that does not decode to an image, no area is
    processed: nothing is cropped, no threshold is set and the detector is
    not run.  When [imdecode] gives the empty matrix, [detectHeads] logs an
    error and returns the empty list, the value of a successful call
    without detections; when [imdecode] itself throws (the empty buffer,
    which it rejects by assertion), the image library's exception leaves
    [detectHeads], a failure that differs from every returned result. *)
Theorem undecodable_returns_empty jpeg vs th w :
  (∀ r, ¬ image_of decode jpeg r) →
  let run := call decode infer jpeg vs th w in
  (no_image decode jpeg ∨ decode jpeg = DecThrow)
  ∧ (no_image decode jpeg →
     fst run = Ok []
     ∧ events w run
       = [EvImdecode jpeg; EvLog LvError "Failed to decode JPEG data." None])
  ∧ (decode jpeg = DecThrow →
     fst run = Throw CvException
     ∧ events w run = [EvImdecode jpeg]
     ∧ ∀ good : Res (list Rect.t) * World,
         failed (fst good) = false → distinguishable_failure run good)
  ∧ heap (snd run) = heap w
  ∧ inf (snd run) = inf w
  ∧ existsb is_roi (events w run) = false
  ∧ existsb is_inference (events w run) = false.
Proof.
  intros Hnot run. subst run.
  destruct (decode_cases jpeg) as [Hd|[Hno|[r Him]]].
  - rewrite (call_decode_throws jpeg vs th w Hd), events_of_run. simpl.
    split; [by right|]. split; [|split; [|done]].
    + intros [Hd'|(r & Hd' & _)]; by rewrite Hd in Hd'.
    + intros _. split; [done|]. split; [done|].
      intros [[l|e] wg] Hok; [|done]. by split.
  - rewrite (call_no_image jpeg vs th w Hno), events_of_run. simpl.
    split; [by left|]. split; [done|]. split; [|done].
    intros Hd. destruct Hno as [Hd'|(r & Hd' & _)]; by rewrite Hd in Hd'.
  - by destruct (Hnot r).
Qed.

(** C7: the crop and the detection leave the decoded image as it was: the
    pixels the header [img] shows after the whole call are those it showed
    right after [imdecode], its buffer still holds the decoded raster, and
    the buffers that were there before the call are unchanged. *)
Theorem decoded_image_unchanged jpeg vs th w r :
  image_of decode jpeg r →
  let img := decoded_mat w r in
  let entry := mkWorld (heap w) (inf w) (trace w) (mkArgs jpeg vs th) in
  let decoded := imdecode decode jpeg entry in
  let run := call decode infer jpeg vs th w in
  fst decoded = Ok img
  ∧ cv.Mat.contents (heap (snd run)) img
    = cv.Mat.contents (heap (snd decoded)) img
  ∧ heap (snd run) !! length (heap w) = Some r
  ∧ ∀ (b : nat) (old : Raster), heap w !! b = Some old →
      heap (snd run) !! b = Some old.
Proof.
  intros Him img entry decoded run. pose proof Him as (Hd & Hr & Hc).
  assert (decoded = (Ok img, mkWorld (heap w ++ [r]) (inf w)
                               (trace w ++ [EvImdecode jpeg])
                               (mkArgs jpeg vs th))) as ->.
  { subst decoded entry. unfold imdecode, bind, emit, alloc, ret. simpl.
    rewrite Hd.
    replace ((0 <? raster_rows r) && (0 <? raster_cols r)) with true
      by (symmetry; apply andb_true_iff; split; apply Z.ltb_lt; lia).
    done. }
  assert (∃ tl, heap (snd run) = heap w ++ r :: tl) as [tl Hheap].
  { subst run.
    destruct (cv.Mat.roi_ok (decoded_mat w r)
                (getTgtRect vs (raster_cols r) (raster_rows r))) eqn:Hroi.
    - rewrite (call_reaches_detector jpeg vs th w r Him Hroi).
      unfold heap_after.
      destruct (output _); simpl; destruct (_ || _); eauto.
    - rewrite (call_roi_fails jpeg vs th w r Him Hroi). simpl. eauto. }
  simpl. split; [done|]. unfold cv.Mat.contents. simpl.
  rewrite Hheap, !heap_lookup_new. repeat split; try done.
  intros b old Hb. by apply lookup_app_l_Some.
Qed.

(** C8: [detectHeads] never writes to the object behind [thresholds], nor
    to the other two reference parameters: the caller's objects are after
    the call what they were before it; the three fields are only passed to
    [setThresholds], and the detector holds either them or what it held
    before. *)
Theorem thresholds_not_mutated jpeg vs th w :
  let run := call decode infer jpeg vs th w in
  args (snd run) = mkArgs jpeg vs th
  ∧ Thresholds.confidenceThreshold (thresholds (args (snd run)))
    = Thresholds.confidenceThreshold th
  ∧ Thresholds.scoreThreshold (thresholds (args (snd run)))
    = Thresholds.scoreThreshold th
  ∧ Thresholds.nmsThreshold (thresholds (args (snd run)))
    = Thresholds.nmsThreshold th
  ∧ (∀ c s n, EvSetThresholds c s n ∈ events w run →
       Thresholds.mk c s n = th)
  ∧ (inf (snd run) = th ∨ inf (snd run) = inf w).
Proof.
  intros run.
  assert (args (snd run) = mkArgs jpeg vs th
          ∧ (∀ c s n, EvSetThresholds c s n ∈ events w run →
               Thresholds.mk c s n = th)
          ∧ (inf (snd run) = th ∨ inf (snd run) = inf w)) as (Ha & Hs & Hi).
  { subst run.
    destruct (decode_cases jpeg) as [Hd|[Hno|[r Him]]].
    - rewrite (call_decode_throws jpeg vs th w Hd), events_of_run. simpl.
      repeat split; [|by right]. intros c s n Hin.
      repeat (apply elem_of_cons in Hin as [?|Hin]; [done|]).
      by apply elem_of_nil in Hin.
    - rewrite (call_no_image jpeg vs th w Hno), events_of_run. simpl.
      repeat split; [|by right]. intros c s n Hin.
      repeat (apply elem_of_cons in Hin as [?|Hin]; [done|]).
      by apply elem_of_nil in Hin.
    - destruct (cv.Mat.roi_ok (decoded_mat w r)
                  (getTgtRect vs (raster_cols r) (raster_rows r))) eqn:Hroi.
      + rewrite (call_reaches_detector jpeg vs th w r Him Hroi).
        destruct (output _); simpl; rewrite events_of_run;
          (repeat split; [|by left]); intros c s n Hin;
          unfold calls_to_detector in Hin; simpl in Hin;
          repeat (apply elem_of_cons in Hin as [Heq|Hin];
                  [try done; injection Heq as -> -> ->; by destruct th|]);
          by apply elem_of_nil in Hin.
      + rewrite (call_roi_fails jpeg vs th w r Him Hroi), events_of_run.
        simpl. repeat split; [|by right]. intros c s n Hin.
        repeat (apply elem_of_cons in Hin as [?|Hin]; [done|]).
        by apply elem_of_nil in Hin. }
  rewrite Ha. simpl. done.
Qed.

End Paths.

(** ** The claims on the stand-ins *)

(** A detector that throws: its exception leaves [detectHeads], after the
    thresholds were set. *)
Example detector_exception_propagates :
  let run := call Stub.decode Stub.broken Stub.jpeg Stub.square
                  Stub.defaults Stub.start in
  fst run = Throw InferenceException ∧ inf (snd run) = Stub.defaults.
Proof. split; reflexivity. Qed.

(** C1 on the 4x4 image, the square (1,1)-(3,3) and one canned box at (1,0):
    the box comes back at (2,1) with its size and confidence. *)
Lemma detectHeads_translates_witness :
  ∃ results res,
    fst (call Stub.decode (Stub.canned [Stub.head]) Stub.jpeg Stub.square
              Stub.defaults Stub.start) = Ok results
    ∧ results !! 0%nat = Some res
    ∧ Rect.x res = 1 + 1 ∧ Rect.y res = 0 + 1
    ∧ Rect.width res = 2 ∧ Rect.height res = 2
    ∧ Rect.confidence res = Stub.half.
Proof.
  destruct (detectHeads_translates Stub.decode (Stub.canned [Stub.head])
              Stub.jpeg Stub.square Stub.defaults Stub.start Stub.image
              [Stub.head])
    as (results & Hres & _ & Hat).
  - repeat split.
  - vm_compute. reflexivity.
  - vm_compute. reflexivity.
  - vm_compute. discriminate.
  - destruct (Hat 0%nat Stub.head) as (res & H0 & _ & _ & Hx & Hy & Hw & Hh & Hc).
    + reflexivity.
    + exists results, res. repeat split; try done.
      * apply Hx. vm_compute. split; discriminate.
      * apply Hy. vm_compute. split; discriminate.
Defined.

(** C9 on a triangle: the canned box at (2,2) lies in the bounding
    rectangle (0,0,3,3) and outside the triangle, and is returned. *)
Lemma detectHeads_no_polygon_filter_witness :
  getTgtRect Stub.triangle 4 4 = cv.Rect.mk 0 0 3 3
  ∧ fst (call Stub.decode (Stub.canned [Stub.corner_head]) Stub.jpeg
              Stub.triangle Stub.defaults Stub.start)
    = Ok [Rect.mk 2 2 1 1 Stub.half].
Proof.
  destruct (detectHeads_no_polygon_filter Stub.decode
              (Stub.canned [Stub.corner_head]) Stub.jpeg Stub.triangle
              Stub.defaults Stub.start Stub.image [Stub.corner_head])
    as (Hres & _).
  - repeat split.
  - vm_compute. reflexivity.
  - vm_compute. reflexivity.
  - vm_compute. discriminate.
  - split; [reflexivity|exact Hres].
Defined.

(** C3 as stated fails on the 4x4 image with no vertex: the call does fail,
    but at the crop, which is attempted by (4,4,-4,-4). *)
Lemma empty_vertices_not_rejected :
  let run := call Stub.decode (Stub.canned [Stub.head]) Stub.jpeg []
                  Stub.defaults Stub.start in
  events Stub.start run
  = [EvImdecode Stub.jpeg; EvRoi (cv.Rect.mk 4 4 (-4) (-4))]
  ∧ ¬ rejected_before_crop Stub.start run.
Proof.
  split; [reflexivity|]. intros [_ Hnone]. vm_compute in Hnone. discriminate.
Qed.

Lemma empty_vertices_crop_throws_witness :
  let run := call Stub.decode (Stub.canned [Stub.head]) Stub.jpeg []
                  Stub.defaults Stub.start in
  fst run = Throw CvException
  ∧ events Stub.start run
    = [EvImdecode Stub.jpeg; EvRoi (cv.Rect.mk 4 4 (-4) (-4))].
Proof.
  destruct (empty_vertices_crop_throws Stub.decode (Stub.canned [Stub.head])
              Stub.jpeg Stub.defaults Stub.start Stub.image)
    as (Hres & Hev & _).
  - repeat split.
  - vm_compute. discriminate.
  - vm_compute. discriminate.
  - split; [exact Hres|exact Hev].
Defined.

Lemma empty_vertices_degenerate_rect_witness :
  getTgtRect [] 4 4 = cv.Rect.mk 4 4 (-4) (-4)
  ∧ take 2 (events Stub.start
              (call Stub.decode (Stub.canned [Stub.head]) Stub.jpeg []
                    Stub.defaults Stub.start))
    = [EvImdecode Stub.jpeg; EvRoi (getTgtRect [] 4 4)].
Proof.
  destruct (empty_vertices_degenerate_rect Stub.decode
              (Stub.canned [Stub.head]) Stub.jpeg Stub.defaults Stub.start
              Stub.image)
    as (Hrect & _ & _ & Hev).
  - repeat split.
  - vm_compute. discriminate.
  - vm_compute. discriminate.
  - split; [exact Hrect|exact Hev].
Defined.

(** C4 as stated fails on the 4x4 image with the single vertex (1,1): the
    rectangle is (1,1,0,0), the call succeeds and the detector is run. *)
Lemma zero_area_not_rejected :
  let run := call Stub.decode (Stub.canned [Stub.head]) Stub.jpeg
                  [OBJPos.mk 1 1] Stub.defaults Stub.start in
  getTgtRect [OBJPos.mk 1 1] 4 4 = cv.Rect.mk 1 1 0 0
  ∧ fst run = Ok [Rect.mk 2 1 2 2 Stub.half]
  ∧ EvRunInference cv.Mat.none ∈ events Stub.start run
  ∧ ¬ rejected_before_detector Stub.start run.
Proof.
  split; [reflexivity|]. split; [reflexivity|]. split.
  - vm_compute. do 4 apply list_elem_of_further. apply list_elem_of_here.
  - intros [_ Hnone]. vm_compute in Hnone. discriminate.
Qed.

Lemma zero_area_crop_reaches_detector_witness :
  let run := call Stub.decode (Stub.canned [Stub.head]) Stub.jpeg
                  [OBJPos.mk 1 1] Stub.defaults Stub.start in
  fst run = Ok [Rect.mk 2 1 2 2 Stub.half]
  ∧ existsb is_inference (events Stub.start run) = true.
Proof.
  destruct (zero_area_crop_reaches_detector Stub.decode
              (Stub.canned [Stub.head]) Stub.jpeg [OBJPos.mk 1 1]
              Stub.defaults Stub.start Stub.image)
    as (Hres & _ & Hinf).
  - repeat split.
  - vm_compute. reflexivity.
  - left. reflexivity.
  - split; [exact Hres|exact Hinf].
Defined.

(** C5 as stated fails on a buffer of two letters: the call returns the
    empty list, as does a call on an image in which the detector finds
    nothing. *)
Lemma decode_failure_not_distinguishable :
  let bad := call Stub.decode (Stub.canned []) Stub.garbage Stub.square
                  Stub.defaults Stub.start in
  let good := call Stub.decode (Stub.canned []) Stub.jpeg Stub.square
                   Stub.defaults Stub.start in
  fst bad = Ok [] ∧ fst good = Ok []
  ∧ existsb is_inference (events Stub.start good) = true
  ∧ ¬ distinguishable_failure bad good.
Proof.
  split; [reflexivity|]. split; [reflexivity|]. split; [reflexivity|].
  intros [_ Hdiff]. apply Hdiff. reflexivity.
Qed.

Lemma undecodable_returns_empty_witness :
  let run := call Stub.decode (Stub.canned [Stub.head]) Stub.garbage
                  Stub.square Stub.defaults Stub.start in
  let thrown := call Stub.decode (Stub.canned [Stub.head]) []
                     Stub.square Stub.defaults Stub.start in
  (fst run = Ok []
   ∧ events Stub.start run
     = [EvImdecode Stub.garbage;
        EvLog LvError "Failed to decode JPEG data." None])
  ∧ (fst thrown = Throw CvException
     ∧ events Stub.start thrown = [EvImdecode []]).
Proof.
  split.
  - destruct (undecodable_returns_empty Stub.decode (Stub.canned [Stub.head])
                Stub.garbage Stub.square Stub.defaults Stub.start)
      as (_ & Hempty & _).
    + intros r (Hd & _). vm_compute in Hd. discriminate.
    + apply Hempty. left. reflexivity.
  - destruct (undecodable_returns_empty Stub.decode (Stub.canned [Stub.head])
                [] Stub.square Stub.defaults Stub.start)
      as (_ & _ & Hthrow & _).
    + intros r (Hd & _). vm_compute in Hd. discriminate.
    + destruct (Hthrow eq_refl) as (Hres & Hev & _).
      split; [exact Hres|exact Hev].
Defined.

(** C7 with a detector that paints over what it is handed: the clone is
    painted, the decoded image is not. *)
Lemma decoded_image_unchanged_witness :
  let run := call Stub.decode (Stub.canned [Stub.head]) Stub.jpeg Stub.square
                  Stub.defaults Stub.start in
  heap (snd run) !! 0%nat = Some Stub.image
  ∧ heap (snd run) !! 1%nat
    = Some [ [Stub.grey Byte.xff; Stub.grey Byte.xff];
             [Stub.grey Byte.xff; Stub.grey Byte.xff] ].
Proof.
  destruct (decoded_image_unchanged Stub.decode (Stub.canned [Stub.head])
              Stub.jpeg Stub.square Stub.defaults Stub.start Stub.image)
    as (_ & _ & Hbuf & _).
  - repeat split.
  - split; [exact Hbuf|reflexivity].
Defined.

(** * Further properties of the code *)

(** ** [getTgtRect] on arbitrary vertices *)

Lemma fold_min_same l l' s :
  (∀ z, z ∈ l ↔ z ∈ l') → fold_left Z.min l s = fold_left Z.min l' s.
Proof.
  intros Hsame.
  assert (∀ k k' : list Z, (∀ z, z ∈ k → z ∈ k') →
            fold_left Z.min k' s <= fold_left Z.min k s) as Hle.
  { intros k k' Hsub. destruct (fold_min_attained k s) as [->|Hin].
    - apply fold_min_le_seed.
    - by apply fold_min_lower, Hsub. }
  apply Z.le_antisymm; apply Hle; intros z; apply Hsame.
Qed.

Lemma fold_max_same l l' s :
  (∀ z, z ∈ l ↔ z ∈ l') → fold_left Z.max l s = fold_left Z.max l' s.
Proof.
  intros Hsame.
  assert (∀ k k' : list Z, (∀ z, z ∈ k → z ∈ k') →
            fold_left Z.max k s <= fold_left Z.max k' s) as Hle.
  { intros k k' Hsub. destruct (fold_max_attained k s) as [->|Hin].
    - apply fold_max_ge_seed.
    - by apply fold_max_upper, Hsub. }
  apply Z.le_antisymm; apply Hle; intros z; apply Hsame.
Qed.

Lemma xs_same vs vs' :
  (∀ p, p ∈ vs ↔ p ∈ vs') → ∀ z, z ∈ xs vs ↔ z ∈ xs vs'.
Proof.
  intros Hsame z.
  split; intros (p & Hp & ->)%xs_inv; apply elem_of_xs; by apply Hsame.
Qed.

Lemma ys_same vs vs' :
  (∀ p, p ∈ vs ↔ p ∈ vs') → ∀ z, z ∈ ys vs ↔ z ∈ ys vs'.
Proof.
  intros Hsame z.
  split; intros (p & Hp & ->)%ys_inv; apply elem_of_ys; by apply Hsame.
Qed.

(** X1: the rectangle depends on the vertices as a set only: two sequences
    with the same vertices, in any order and with any repetition, give the
    same rectangle, for every image size. *)
Theorem getTgtRect_same_vertices vs vs' w h :
  (∀ p, p ∈ vs ↔ p ∈ vs') → getTgtRect vs w h = getTgtRect vs' w h.
Proof.
  intros Hsame. unfold getTgtRect.
  rewrite !scan_ltx, !scan_lty, !scan_rbx, !scan_rby. simpl.
  rewrite (fold_min_same _ _ w (xs_same vs vs' Hsame)).
  rewrite (fold_min_same _ _ h (ys_same vs vs' Hsame)).
  rewrite (fold_max_same _ _ 0 (xs_same vs vs' Hsame)).
  by rewrite (fold_max_same _ _ 0 (ys_same vs vs' Hsame)).
Qed.

(** The square of the stand-ins, walked backwards from another corner and
    with one corner twice. *)
Lemma getTgtRect_same_vertices_witness :
  getTgtRect Stub.square 4 4
  = getTgtRect [OBJPos.mk 3 3; OBJPos.mk 3 1; OBJPos.mk 1 1;
                OBJPos.mk 1 3; OBJPos.mk 3 3] 4 4.
Proof.
  apply getTgtRect_same_vertices. intros p. unfold Stub.square.
  rewrite !elem_of_cons, !elem_of_nil. tauto.
Defined.

(** The far corner, computed back from the rectangle in 32 bits, is the
    greatest coordinate (or 0, the seed). *)
Lemma getTgtRect_far_corner vs w h :
  Int.add (cv.Rect.x (getTgtRect vs w h)) (cv.Rect.width (getTgtRect vs w h))
  = Int.wrap (fold_left Z.max (xs vs) 0)
  ∧ Int.add (cv.Rect.y (getTgtRect vs w h)) (cv.Rect.height (getTgtRect vs w h))
    = Int.wrap (fold_left Z.max (ys vs) 0).
Proof.
  unfold getTgtRect. simpl. rewrite scan_ltx, scan_lty, scan_rbx, scan_rby.
  simpl. split; apply IntFacts.add_sub.
Qed.

(** X2: whatever the vertices (negative, beyond the image), as long as no
    subtraction overflows, every vertex lies in the rectangle; besides, the
    origin is never beyond the image size and the far corner never before
    (0,0), the seeds of the four accumulators. *)
Theorem getTgtRect_covers vs w h :
  (∀ p, p ∈ vs → modest (OBJPos.x p) ∧ modest (OBJPos.y p)) →
  modest w → modest h →
  let rect := getTgtRect vs w h in
  (∀ p, p ∈ vs →
     cv.Rect.x rect <= OBJPos.x p <= cv.Rect.x rect + cv.Rect.width rect
     ∧ cv.Rect.y rect <= OBJPos.y p <= cv.Rect.y rect + cv.Rect.height rect)
  ∧ cv.Rect.x rect <= w ∧ cv.Rect.y rect <= h
  ∧ 0 <= cv.Rect.x rect + cv.Rect.width rect
  ∧ 0 <= cv.Rect.y rect + cv.Rect.height rect.
Proof.
  intros Hvs Hw Hh rect. subst rect. unfold getTgtRect. simpl.
  rewrite scan_ltx, scan_lty, scan_rbx, scan_rby. simpl.
  assert (∀ z, z ∈ xs vs → modest z) as Hx.
  { intros z (p & Hp & ->)%xs_inv. by apply Hvs. }
  assert (∀ z, z ∈ ys vs → modest z) as Hy.
  { intros z (p & Hp & ->)%ys_inv. by apply Hvs. }
  assert (modest 0) as H0 by (unfold modest; lia).
  assert (modest (fold_left Z.min (xs vs) w)) as Lx
    by (destruct (fold_min_attained (xs vs) w) as [->|E]; auto).
  assert (modest (fold_left Z.min (ys vs) h)) as Ly
    by (destruct (fold_min_attained (ys vs) h) as [->|E]; auto).
  assert (modest (fold_left Z.max (xs vs) 0)) as Rx
    by (destruct (fold_max_attained (xs vs) 0) as [->|E]; auto).
  assert (modest (fold_left Z.max (ys vs) 0)) as Ry
    by (destruct (fold_max_attained (ys vs) 0) as [->|E]; auto).
  pose proof (fold_min_le_seed (xs vs) w). pose proof (fold_min_le_seed (ys vs) h).
  pose proof (fold_max_ge_seed (xs vs) 0). pose proof (fold_max_ge_seed (ys vs) 0).
  rewrite !IntFacts.sub_exact
    by (unfold modest, Int.in_range, Int.min_int, Int.max_int in *; lia).
  split; [|lia]. intros p Hp.
  pose proof (fold_min_lower (xs vs) w _ (elem_of_xs _ _ Hp)).
  pose proof (fold_min_lower (ys vs) h _ (elem_of_ys _ _ Hp)).
  pose proof (fold_max_upper (xs vs) 0 _ (elem_of_xs _ _ Hp)).
  pose proof (fold_max_upper (ys vs) 0 _ (elem_of_ys _ _ Hp)).
  lia.
Qed.

(** A triangle with a corner left of the image and a corner below it. *)
Lemma getTgtRect_covers_witness :
  let rect := getTgtRect [OBJPos.mk (-5) 2; OBJPos.mk 3 9; OBJPos.mk 1 1] 4 4 in
  cv.Rect.x rect <= -5 <= cv.Rect.x rect + cv.Rect.width rect
  ∧ cv.Rect.y rect <= 9 <= cv.Rect.y rect + cv.Rect.height rect.
Proof.
  intros rect.
  destruct (getTgtRect_covers
              [OBJPos.mk (-5) 2; OBJPos.mk 3 9; OBJPos.mk 1 1] 4 4)
    as (Hcover & _).
  - intros p Hp. unfold modest.
    repeat (apply elem_of_cons in Hp as [->|Hp]); simpl; try lia.
    by apply elem_of_nil in Hp.
  - unfold modest. lia.
  - unfold modest. lia.
  - split.
    + apply (Hcover (OBJPos.mk (-5) 2)). apply list_elem_of_here.
    + apply (Hcover (OBJPos.mk 3 9)).
      apply list_elem_of_further, list_elem_of_here.
Defined.

(** ** When the crop is accepted *)

Lemma in_range_max_seed l :
  (∀ z, z ∈ l → Int.in_range z) → Int.in_range (fold_left Z.max l 0).
Proof.
  intros Hl. destruct (fold_max_attained l 0) as [->|E]; [|by apply Hl].
  unfold Int.in_range, Int.min_int, Int.max_int. lia.
Qed.

(** The crop of a decoded image by the bounding rectangle passes the bounds
    assertion exactly for a non-empty vertex sequence inside the image. *)
Lemma crop_accepted_iff vs (w : World) (r : Raster) :
  0 < raster_cols r <= Int.max_int → 0 < raster_rows r <= Int.max_int →
  int_vertices vs →
  cv.Mat.roi_ok (decoded_mat w r)
    (getTgtRect vs (raster_cols r) (raster_rows r)) = true
  ↔ vs ≠ [] ∧ within (raster_cols r) (raster_rows r) vs.
Proof.
  intros Hc Hr Hint.
  assert (∀ z, z ∈ xs vs → Int.in_range z) as Hx.
  { intros z (p & Hp & ->)%xs_inv. by apply Hint. }
  assert (∀ z, z ∈ ys vs → Int.in_range z) as Hy.
  { intros z (p & Hp & ->)%ys_inv. by apply Hint. }
  pose proof (getTgtRect_far_corner vs (raster_cols r) (raster_rows r))
    as [Fx Fy].
  rewrite (IntFacts.wrap_in_range _ (in_range_max_seed _ Hx)) in Fx.
  rewrite (IntFacts.wrap_in_range _ (in_range_max_seed _ Hy)) in Fy.
  unfold cv.Mat.roi_ok. rewrite Fx, Fy. clear Fx Fy.
  unfold getTgtRect, decoded_mat. simpl.
  rewrite scan_ltx, scan_lty, scan_rbx, scan_rby. simpl.
  rewrite !andb_true_iff, !Z.leb_le. split.
  - intros (((((Hx0 & Hw0) & Hxw) & Hy0) & Hh0) & Hyh). split.
    + intros ->. simpl in Hw0. rewrite IntFacts.sub_exact in Hw0;
        unfold Int.in_range, Int.min_int, Int.max_int in *; lia.
    + intros p Hp.
      pose proof (fold_min_lower (xs vs) (raster_cols r) _ (elem_of_xs _ _ Hp)).
      pose proof (fold_min_lower (ys vs) (raster_rows r) _ (elem_of_ys _ _ Hp)).
      pose proof (fold_max_upper (xs vs) 0 _ (elem_of_xs _ _ Hp)).
      pose proof (fold_max_upper (ys vs) 0 _ (elem_of_ys _ _ Hp)).
      lia.
  - intros [Hne Hin].
    assert (xs vs ≠ []) as Hxs by (destruct vs; done).
    assert (ys vs ≠ []) as Hys by (destruct vs; done).
    assert (∀ z, z ∈ xs vs → 0 <= z <= raster_cols r) as Bx.
    { intros z (p & Hp & ->)%xs_inv. by apply Hin. }
    assert (∀ z, z ∈ ys vs → 0 <= z <= raster_rows r) as By.
    { intros z (p & Hp & ->)%ys_inv. by apply Hin. }
    pose proof (fold_min_is_min (xs vs) (raster_cols r) Hxs
                  (λ z Hz, proj2 (Bx z Hz))) as [Mx1 Mx2].
    pose proof (fold_min_is_min (ys vs) (raster_rows r) Hys
                  (λ z Hz, proj2 (By z Hz))) as [My1 My2].
    pose proof (fold_max_is_max (xs vs) 0 Hxs
                  (λ z Hz, proj1 (Bx z Hz))) as [Nx1 Nx2].
    pose proof (fold_max_is_max (ys vs) 0 Hys
                  (λ z Hz, proj1 (By z Hz))) as [Ny1 Ny2].
    pose proof (Bx _ Mx1). pose proof (By _ My1).
    pose proof (Bx _ Nx1). pose proof (By _ Ny1).
    pose proof (Mx2 _ Nx1). pose proof (My2 _ Ny1).
    rewrite !IntFacts.sub_exact
      by (unfold Int.in_range, Int.min_int, Int.max_int in *; lia).
    lia.
Qed.

(** ** [detectHeads] over all its paths *)

Section MorePaths.

Variable decode : list Byte.byte → Decoded.
Variable infer : Thresholds.t → Raster → Inferred.

Implicit Types (jpeg : list Byte.byte) (vs : list OBJPos.t)
  (th : Thresholds.t) (w : World) (r : Raster).

Lemma image_not_no_image jpeg r :
  image_of decode jpeg r → ¬ no_image decode jpeg.
Proof.
  intros (Hd & Hr & Hc) [Hd'|(r' & Hd' & Hz)]; rewrite Hd in Hd'; [done|].
  injection Hd' as <-. apply andb_false_iff in Hz as [Hz|Hz];
    apply Z.ltb_ge in Hz; lia.
Qed.

(** X3: for an image that decodes, [detectHeads] leaves with the image
    library's exception exactly when the vertex sequence is empty or has a
    vertex outside [[0, cols] x [0, rows]]; it has then only decoded and
    tried the crop, and the detector keeps the thresholds it held. *)
Theorem detectHeads_throws_at_crop_iff jpeg vs th w r :
  image_of decode jpeg r →
  raster_cols r <= Int.max_int → raster_rows r <= Int.max_int →
  int_vertices vs →
  let run := call decode infer jpeg vs th w in
  (fst run = Throw CvException
   ↔ ¬ (vs ≠ [] ∧ within (raster_cols r) (raster_rows r) vs))
  ∧ (fst run = Throw CvException →
     events w run
     = [EvImdecode jpeg;
        EvRoi (getTgtRect vs (raster_cols r) (raster_rows r))]
     ∧ inf (snd run) = inf w).
Proof.
  intros Him Hc Hr Hint run. subst run. pose proof Him as (_ & Hr0 & Hc0).
  pose proof (crop_accepted_iff vs w r (conj Hc0 Hc) (conj Hr0 Hr) Hint)
    as Hiff.
  destruct (cv.Mat.roi_ok (decoded_mat w r)
              (getTgtRect vs (raster_cols r) (raster_rows r))) eqn:Hroi.
  - rewrite (call_reaches_detector decode infer jpeg vs th w r Him Hroi).
    destruct (output _); simpl.
    + split; [|done]. split; [done|]. intros Hnot. destruct Hnot.
      by apply Hiff.
    + split; [|done]. split; [done|]. intros Hnot. destruct Hnot.
      by apply Hiff.
  - rewrite (call_roi_fails decode infer jpeg vs th w r Him Hroi).
    rewrite events_of_run. simpl. split; [|done].
    split; [|done]. intros _ Hin. apply Hiff in Hin. done.
Qed.

(** X4: what [detectHeads] returns depends on its three arguments only, not
    on the state it starts in: the thresholds the detector held and the
    buffers of earlier calls do not matter, so a call returns the same
    after any other call as before it. *)
Theorem detectHeads_result_independent_of_state jpeg vs th w w' :
  fst (call decode infer jpeg vs th w) = fst (call decode infer jpeg vs th w')
  ∧ ∀ jpeg0 vs0 th0,
      fst (call decode infer jpeg vs th
             (snd (call decode infer jpeg0 vs0 th0 w)))
      = fst (call decode infer jpeg vs th w).
Proof.
  assert (∀ u u', fst (call decode infer jpeg vs th u)
                  = fst (call decode infer jpeg vs th u')) as Hany.
  { intros u u'. destruct (decode_cases decode jpeg) as [Hd|[Hno|[r Him]]].
    - by rewrite !(call_decode_throws decode infer jpeg vs th _ Hd).
    - by rewrite !(call_no_image decode infer jpeg vs th _ Hno).
    - destruct (cv.Mat.roi_ok (decoded_mat u r)
                  (getTgtRect vs (raster_cols r) (raster_rows r))) eqn:Hroi.
      + assert (cv.Mat.roi_ok (decoded_mat u' r)
                  (getTgtRect vs (raster_cols r) (raster_rows r)) = true)
          as Hroi' by exact Hroi.
        rewrite (call_reaches_detector decode infer jpeg vs th u r Him Hroi).
        rewrite (call_reaches_detector decode infer jpeg vs th u' r Him Hroi').
        by destruct (output _).
      + assert (cv.Mat.roi_ok (decoded_mat u' r)
                  (getTgtRect vs (raster_cols r) (raster_rows r)) = false)
          as Hroi' by exact Hroi.
        rewrite (call_roi_fails decode infer jpeg vs th u r Him Hroi).
        by rewrite (call_roi_fails decode infer jpeg vs th u' r Him Hroi'). }
  split; [apply Hany|]. intros. apply Hany.
Qed.

(** X5: in every call the detector is run at most once, and what comes right
    before its run is [setThresholds] with the three fields of the
    caller's thresholds: it never runs on thresholds of an earlier call. *)
Theorem detector_configured_before_run jpeg vs th w (i : nat) (m : cv.Mat.t) :
  let ev := events w (call decode infer jpeg vs th w) in
  ev !! i = Some (EvRunInference m) →
  (∃ j, i = S j
        ∧ ev !! j = Some (EvSetThresholds (Thresholds.confidenceThreshold th)
                                          (Thresholds.scoreThreshold th)
                                          (Thresholds.nmsThreshold th)))
  ∧ ∀ (i' : nat) (m' : cv.Mat.t), ev !! i' = Some (EvRunInference m') → i' = i.
Proof.
  intros ev.
  assert ((∀ k e, ev !! k = Some e → is_inference e = false)
          ∨ ev !! 3%nat
            = Some (EvSetThresholds (Thresholds.confidenceThreshold th)
                                    (Thresholds.scoreThreshold th)
                                    (Thresholds.nmsThreshold th))
            ∧ ∀ k e, ev !! k = Some e → is_inference e = true → k = 4%nat)
    as [Hnone|(Hset & Honly)].
  { subst ev. destruct (decode_cases decode jpeg) as [Hd|[Hno|[r Him]]].
    - left. rewrite (call_decode_throws decode infer jpeg vs th w Hd),
        events_of_run. intros [|k] e He; simpl in He; by simplify_eq.
    - left. rewrite (call_no_image decode infer jpeg vs th w Hno),
        events_of_run. intros [|[|k]] e He; simpl in He; by simplify_eq.
    - destruct (cv.Mat.roi_ok (decoded_mat w r)
                  (getTgtRect vs (raster_cols r) (raster_rows r))) eqn:Hroi.
      + right.
        rewrite (call_reaches_detector decode infer jpeg vs th w r Him Hroi).
        destruct (output _); simpl; rewrite events_of_run;
          (split; [done|]);
          intros [|[|[|[|[|[|k]]]]]] e He Hinf; simpl in He;
          simplify_eq; done.
      + left. rewrite (call_roi_fails decode infer jpeg vs th w r Him Hroi),
          events_of_run. intros [|[|k]] e He; simpl in He; by simplify_eq. }
  - intros Hi. by apply Hnone in Hi.
  - intros Hi. assert (i = 4%nat) as -> by (by eapply Honly).
    split; [by exists 3%nat|].
    intros i' m' Hi'. by eapply Honly.
Qed.

(** X6: the error line is logged exactly when [imdecode] gives the empty
    matrix, and a call that logs it returns the empty list; a call that
    leaves with an exception logs no error. *)
Theorem error_logged_iff jpeg vs th w :
  let run := call decode infer jpeg vs th w in
  (EvLog LvError "Failed to decode JPEG data." None ∈ events w run
   ↔ no_image decode jpeg)
  ∧ (no_image decode jpeg → fst run = Ok [])
  ∧ (failed (fst run) = true →
     ∀ msg n, EvLog LvError msg n ∉ events w run).
Proof.
  intros run. subst run.
  destruct (decode_cases decode jpeg) as [Hd|[Hno|[r Him]]].
  - rewrite (call_decode_throws decode infer jpeg vs th w Hd), events_of_run.
    simpl. split; [split|split].
    + intros Hin. apply elem_of_cons in Hin as [?|Hin]; [done|].
      by apply elem_of_nil in Hin.
    + intros [Hd'|(r & Hd' & _)]; by rewrite Hd in Hd'.
    + intros [Hd'|(r & Hd' & _)]; by rewrite Hd in Hd'.
    + intros _ msg n Hin. apply elem_of_cons in Hin as [?|Hin]; [done|].
      by apply elem_of_nil in Hin.
  - rewrite (call_no_image decode infer jpeg vs th w Hno), events_of_run.
    simpl. split; [split; [done|]|done].
    intros _. apply list_elem_of_further, list_elem_of_here.
  - pose proof (image_not_no_image jpeg r Him) as Hnot.
    assert (∀ msg n, EvLog LvError msg n
                     ∉ events w (call decode infer jpeg vs th w)) as Hnolog.
    { destruct (cv.Mat.roi_ok (decoded_mat w r)
                  (getTgtRect vs (raster_cols r) (raster_rows r))) eqn:Hroi.
      - rewrite (call_reaches_detector decode infer jpeg vs th w r Him Hroi).
        destruct (output _); simpl; rewrite events_of_run;
          intros msg n Hin; unfold calls_to_detector in Hin; simpl in Hin;
          repeat (apply elem_of_cons in Hin as [?|Hin]; [done|]);
          by apply elem_of_nil in Hin.
      - rewrite (call_roi_fails decode infer jpeg vs th w r Him Hroi),
          events_of_run. intros msg n Hin.
        repeat (apply elem_of_cons in Hin as [?|Hin]; [done|]).
        by apply elem_of_nil in Hin. }
    split; [split|split]; try done.
    intros Hin. by apply Hnolog in Hin.
Qed.

End MorePaths.

(** ** [main] *)

(** X9: for a rectangle inside the image given by its four corners, in the
    order [main] uses, [getTgtRect] returns that rectangle: the origin is
    the first corner, width and height are the differences of the
    coordinates. *)
Theorem getTgtRect_of_corners (x y wd ht cw ch : Z) :
  0 <= x → 0 <= y → 0 <= wd → 0 <= ht →
  x + wd <= cw → y + ht <= ch → cw <= Int.max_int → ch <= Int.max_int →
  getTgtRect [OBJPos.mk x y; OBJPos.mk (x + wd) y;
              OBJPos.mk (x + wd) (y + ht); OBJPos.mk x (y + ht)] cw ch
  = cv.Rect.mk x y wd ht.
Proof.
  intros Hx Hy Hwd Hht Hxw Hyh Hcw Hch. unfold getTgtRect.
  rewrite scan_ltx, scan_lty, scan_rbx, scan_rby. cbn.
  replace (Z.min (Z.min (Z.min (Z.min cw x) (x + wd)) (x + wd)) x)
    with x by lia.
  replace (Z.min (Z.min (Z.min (Z.min ch y) y) (y + ht)) (y + ht))
    with y by lia.
  replace (Z.max (Z.max (Z.max (Z.max 0 x) (x + wd)) (x + wd)) x)
    with (x + wd) by lia.
  replace (Z.max (Z.max (Z.max (Z.max 0 y) y) (y + ht)) (y + ht))
    with (y + ht) by lia.
  rewrite !IntFacts.sub_exact
    by (unfold Int.in_range, Int.min_int, Int.max_int in *; lia).
  f_equal; lia.
Qed.

(** The request of the README: the corners (0,0), (1279,0), (1279,719),
    (0,719) in a 1280x720 image give a rectangle of 1279 by 719. *)
Lemma getTgtRect_of_corners_witness :
  getTgtRect [OBJPos.mk 0 0; OBJPos.mk 1279 0;
              OBJPos.mk 1279 719; OBJPos.mk 0 719] 1280 720
  = cv.Rect.mk 0 0 1279 719.
Proof.
  apply (getTgtRect_of_corners 0 0 1279 719 1280 720);
    unfold Int.max_int; lia.
Defined.

Lemma full_frame_rect (cw ch : Z) :
  0 < cw <= Int.max_int → 0 < ch <= Int.max_int →
  getTgtRect [OBJPos.mk 0 0; OBJPos.mk cw 0; OBJPos.mk cw ch; OBJPos.mk 0 ch]
             cw ch
  = cv.Rect.mk 0 0 cw ch.
Proof.
  intros Hw Hh. unfold getTgtRect.
  rewrite scan_ltx, scan_lty, scan_rbx, scan_rby. cbn.
  replace (Z.min (Z.min (Z.min (Z.min cw 0) cw) cw) 0) with 0 by lia.
  replace (Z.min (Z.min (Z.min (Z.min ch 0) 0) ch) ch) with 0 by lia.
  replace (Z.max (Z.max (Z.max (Z.max 0 0) cw) cw) 0) with cw by lia.
  replace (Z.max (Z.max (Z.max (Z.max 0 0) 0) ch) ch) with ch by lia.
  rewrite !IntFacts.sub_exact
    by (unfold Int.in_range, Int.min_int, Int.max_int in *; lia).
  f_equal; lia.
Qed.

Lemma full_frame_accepted (w : World) (r : Raster) :
  0 < raster_cols r <= Int.max_int → 0 < raster_rows r <= Int.max_int →
  cv.Mat.roi_ok (decoded_mat w r)
    (cv.Rect.mk 0 0 (raster_cols r) (raster_rows r)) = true.
Proof.
  intros Hc Hr. unfold cv.Mat.roi_ok. simpl.
  rewrite !IntFacts.add_exact
    by (unfold Int.in_range, Int.min_int, Int.max_int in *; lia).
  rewrite !andb_true_iff, !Z.leb_le. lia.
Qed.

(** A crop at the origin moves no box whose corner is an [int]. *)
Lemma translated_at_origin cw ch (dets : list Detection.t) :
  (∀ b, b ∈ dets → Int.in_range (cv.Rect.x (Detection.box b))
                   ∧ Int.in_range (cv.Rect.y (Detection.box b))) →
  translated (cv.Rect.mk 0 0 cw ch) <$> dets = as_result <$> dets.
Proof.
  intros Hint. apply list_fmap_ext. intros i b Hb.
  apply list_elem_of_lookup_2 in Hb. destruct (Hint b Hb) as [Hx Hy].
  unfold translated, as_result. simpl.
  unfold Int.add. rewrite !Z.add_0_r.
  by rewrite !IntFacts.wrap_in_range.
Qed.

(** The full frame of a rectangular raster is the raster. *)
Lemma full_frame_block (r : Raster) :
  rectangular r → block r 0 0 (raster_cols r) (raster_rows r) = r.
Proof.
  intros Hrect. unfold block, raster_rows. simpl.
  rewrite drop_0, Nat2Z.id, firstn_all.
  rewrite <- (list_fmap_id r) at 2. apply list_fmap_ext.
  intros i row Hrow. apply list_elem_of_lookup_2 in Hrow.
  simpl. rewrite drop_0, <- (Hrect row Hrow), Nat2Z.id.
  apply firstn_all.
Qed.

Section MainFacts.

Variable decode : list Byte.byte → Decoded.
Variable infer : Thresholds.t → Raster → Inferred.
Variable open_file : string → option File.
Variable new_PersonCounter : option exn.
Variable format_confidence : float → string.

Lemma imdecode_image jpeg (w : World) (r : Raster) :
  image_of decode jpeg r →
  imdecode decode jpeg w
  = (Ok (decoded_mat w r),
     mkWorld (heap w ++ [r]) (inf w) (trace w ++ [EvImdecode jpeg]) (args w)).
Proof.
  intros (Hd & Hr & Hc). unfold imdecode, bind, emit, alloc, ret. simpl.
  rewrite Hd.
  replace ((0 <? raster_rows r) && (0 <? raster_cols r)) with true
    by (symmetry; apply andb_true_iff; split; apply Z.ltb_lt; lia).
  done.
Qed.

Lemma imdecode_no_image jpeg (w : World) :
  no_image decode jpeg →
  imdecode decode jpeg w
  = (Ok cv.Mat.none,
     mkWorld (heap w) (inf w) (trace w ++ [EvImdecode jpeg]) (args w)).
Proof.
  intros [Hd|(r & Hd & Hz)]; unfold imdecode, bind, emit, ret; simpl;
    rewrite Hd; [|rewrite Hz]; done.
Qed.

Lemma imdecode_throws jpeg (w : World) :
  decode jpeg = DecThrow →
  imdecode decode jpeg w
  = (Throw CvException,
     mkWorld (heap w) (inf w) (trace w ++ [EvImdecode jpeg]) (args w)).
Proof.
  intros Hd. unfold imdecode, bind, emit, raise. simpl. by rewrite Hd.
Qed.

Lemma main_opens argv path (w : World) :
  image_path argv = Some path →
  ∃ out, forallb console out = true
    ∧ main decode infer open_file new_PersonCounter format_confidence argv w
      = main_part decode infer open_file new_PersonCounter format_confidence
          path out w.
Proof.
  unfold image_path, main. destruct (argv !! 1%nat) as [arg|].
  - destruct (String.eqb arg "--version"); [done|].
    destruct (String.eqb arg "--help"); [done|]. simpl.
    intros [= <-]. eexists. split; [|done]. done.
  - intros [= <-]. by exists [].
Qed.

(** X7: on an image file that opens and decodes, [main] asks for the whole
    frame: the crop is accepted, the detector is shown the frame (all of
    the image, for a raster with rows of one length), its boxes come back
    where they are, and [main] draws a rectangle and a label for each, in
    order, then writes the image and exits with 0. *)
Theorem main_full_frame argv path file (r : Raster) dets (w : World) :
  image_path argv = Some path →
  open_file path = Some file →
  image_of decode (bytes file) r →
  raster_cols r <= Int.max_int → raster_rows r <= Int.max_int →
  new_PersonCounter = None →
  let frame := cv.Rect.mk 0 0 (raster_cols r) (raster_rows r) in
  output (infer (Thresholds.mk point_two point_two point_two)
                (cropped r frame)) = Some dets →
  Z.of_nat (length dets) <= Int.max_int →
  (∀ b, b ∈ dets → Int.in_range (cv.Rect.x (Detection.box b))
                   ∧ Int.in_range (cv.Rect.y (Detection.box b))) →
  (∃ w' out,
     forallb console out = true
     ∧ main decode infer open_file new_PersonCounter format_confidence argv w
       = (Ok 0, w',
          out ++ flat_map (draw_head format_confidence) (as_result <$> dets)
              ++ [Imwrite "output.jpg";
                  Cout "Output saved to output.jpg" None]))
  ∧ (rectangular r → cropped r frame = r).
Proof.
  intros Hpath Hopen Him Hc Hr Hnew frame Hout Hlen Hint.
  pose proof Him as (_ & Hr0 & Hc0). split.
  - destruct (main_opens argv path w Hpath) as (out & Hcon & ->).
    unfold main_part. rewrite Hopen, (imdecode_image _ w r Him).
    rewrite decoded_not_empty by done. rewrite Hnew.
    set (w1 := mkWorld _ _ _ _).
    cbn [cv.Mat.cols cv.Mat.rows decoded_mat].
    set (vs := [OBJPos.mk 0 0; OBJPos.mk (raster_cols r) 0;
                OBJPos.mk (raster_cols r) (raster_rows r);
                OBJPos.mk 0 (raster_rows r)]).
    assert (getTgtRect vs (raster_cols r) (raster_rows r) = frame) as Hframe
      by (apply full_frame_rect; lia).
    pose proof (call_reaches_detector decode infer (bytes file) vs
                  (Thresholds.mk point_two point_two point_two) w1 r Him)
      as Hcall.
    cbv zeta in Hcall. rewrite Hframe in Hcall.
    rewrite Hcall by (apply full_frame_accepted; lia). clear Hcall.
    rewrite Hout. rewrite translate_all by done.
    unfold frame.
    rewrite (translated_at_origin (raster_cols r) (raster_rows r) dets Hint).
    eexists _, (out ++ [_; _]). split; [|by rewrite <- !app_assoc].
    rewrite forallb_app, Hcon. simpl. by destruct (read_ok file).
  - intros Hrect. unfold cropped, frame. simpl.
    replace (raster_rows r <=? 0) with false by (symmetry; apply Z.leb_gt; lia).
    replace (raster_cols r <=? 0) with false by (symmetry; apply Z.leb_gt; lia).
    by apply full_frame_block.
Qed.

(** X8: [main] exits with 1 exactly when the file does not open or
    [imdecode] gives the empty matrix, and has then not run the detector,
    drawn or written an image; with [--version] or [--help] it exits with 0
    after one line, the state untouched. *)
Theorem main_exit argv (w : World) :
  let run :=
    main decode infer open_file new_PersonCounter format_confidence argv w in
  match image_path argv with
  | None =>
      fst (fst run) = Ok 0 ∧ snd (fst run) = w
      ∧ ∃ msg, snd run = [Cout msg None]
  | Some path =>
      (fst (fst run) = Ok 1
       ↔ open_file path = None
         ∨ ∃ file, open_file path = Some file ∧ no_image decode (bytes file))
      ∧ (fst (fst run) = Ok 1 →
         forallb console (snd run) = true
         ∧ ∃ l, trace (snd (fst run)) = trace w ++ l
                ∧ existsb is_inference l = false)
  end.
Proof.
  intros run. destruct (image_path argv) as [path|] eqn:Hpath.
  - destruct (main_opens argv path w Hpath) as (out & Hcon & Hmain).
    subst run. rewrite Hmain. clear Hmain. unfold main_part.
    destruct (open_file path) as [file|]; simpl.
    + destruct (decode_cases decode (bytes file)) as [Hd|[Hno|[r Him]]].
      * rewrite (imdecode_throws _ w Hd). simpl. split; [split|]; try done.
        intros [?|(f & [= <-] & [Hd'|(r & Hd' & _)])];
          [done|by rewrite Hd in Hd'..].
      * rewrite (imdecode_no_image _ w Hno). simpl. split.
        -- split; [|done]. intros _. right. by exists file.
        -- intros _. split.
           ++ rewrite !forallb_app, Hcon. simpl. by destruct (read_ok file).
           ++ by exists [EvImdecode (bytes file)].
      * pose proof Him as (_ & Hr0 & Hc0).
        pose proof (image_not_no_image decode _ r Him) as Hnot.
        rewrite (imdecode_image _ w r Him).
        rewrite decoded_not_empty by done.
        assert (∀ res : Res Z * World * list Output,
                  fst (fst res) ≠ Ok 1 →
                  (fst (fst res) = Ok 1
                   ↔ Some file = None
                     ∨ ∃ f, Some file = Some f ∧ no_image decode (bytes f))
                  ∧ (fst (fst res) = Ok 1 →
                     forallb console (snd res) = true
                     ∧ ∃ l, trace (snd (fst res)) = trace w ++ l
                            ∧ existsb is_inference l = false)) as Hother.
        { intros res Hne. split; [split|]; try done.
          intros [?|(f & [= <-] & Hno)]; done. }
        destruct new_PersonCounter; [by apply (Hother (_, _, _))|].
        destruct (call _ _ _ _ _ _) as [[heads|e] w2];
          by apply (Hother (_, _, _)).
    + split; [split; [by left|done]|]. intros _. split.
      * rewrite forallb_app, Hcon. done.
      * exists []. by rewrite app_nil_r.
  - subst run. unfold image_path, main in *.
    destruct (argv !! 1%nat) as [arg|]; [|done].
    destruct (String.eqb arg "--version"); simpl; [eauto|].
    destruct (String.eqb arg "--help"); simpl; [eauto|done].
Qed.

(** X10: on an image file that opens and decodes, with the detector
    constructed, [main] never fails at the crop: it exits with 0 when the
    detector returns, and the only exception that can leave it is the
    detector's. *)
Theorem main_never_fails_at_crop argv path file (r : Raster) (w : World) :
  image_path argv = Some path →
  open_file path = Some file →
  image_of decode (bytes file) r →
  raster_cols r <= Int.max_int → raster_rows r <= Int.max_int →
  new_PersonCounter = None →
  let frame := cv.Rect.mk 0 0 (raster_cols r) (raster_rows r) in
  let out := infer (Thresholds.mk point_two point_two point_two)
                   (cropped r frame) in
  fst (fst (main decode infer open_file new_PersonCounter format_confidence
              argv w))
  = match output out with
    | Some _ => Ok 0
    | None => Throw InferenceException
    end.
Proof.
  intros Hpath Hopen Him Hc Hr Hnew frame out.
  pose proof Him as (_ & Hr0 & Hc0).
  destruct (main_opens argv path w Hpath) as (o & _ & ->).
  unfold main_part. rewrite Hopen, (imdecode_image _ w r Him).
  rewrite decoded_not_empty by done. rewrite Hnew.
  set (w1 := mkWorld _ _ _ _).
  cbn [cv.Mat.cols cv.Mat.rows decoded_mat].
  set (vs := [OBJPos.mk 0 0; OBJPos.mk (raster_cols r) 0;
              OBJPos.mk (raster_cols r) (raster_rows r);
              OBJPos.mk 0 (raster_rows r)]).
  assert (getTgtRect vs (raster_cols r) (raster_rows r) = frame) as Hframe
    by (apply full_frame_rect; lia).
  pose proof (call_reaches_detector decode infer (bytes file) vs
                (Thresholds.mk point_two point_two point_two) w1 r Him)
    as Hcall.
  cbv zeta in Hcall. rewrite Hframe in Hcall.
  rewrite Hcall by (apply full_frame_accepted; lia). clear Hcall.
  fold out. by destruct (output out).
Qed.

End MainFacts.

(** ** The further properties on the stand-ins *)

Lemma square_int_vertices (vs : list OBJPos.t) :
  Forall (λ p, Int.in_range (OBJPos.x p) ∧ Int.in_range (OBJPos.y p)) vs →
  int_vertices vs.
Proof. intros Hall p Hp. by eapply Forall_forall in Hall. Qed.

(** X3 on the 4x4 image with a vertex right of it: the call throws at the
    crop. *)
Lemma detectHeads_throws_at_crop_iff_witness :
  fst (call Stub.decode (Stub.canned [Stub.head]) Stub.jpeg
            [OBJPos.mk 1 1; OBJPos.mk 9 2] Stub.defaults Stub.start)
  = Throw CvException.
Proof.
  destruct (detectHeads_throws_at_crop_iff Stub.decode
              (Stub.canned [Stub.head]) Stub.jpeg
              [OBJPos.mk 1 1; OBJPos.mk 9 2] Stub.defaults Stub.start
              Stub.image)
    as [[_ Hthrows] _].
  - repeat split.
  - vm_compute. discriminate.
  - vm_compute. discriminate.
  - apply square_int_vertices.
    repeat constructor; vm_compute; discriminate.
  - apply Hthrows. intros [_ Hin].
    destruct (Hin (OBJPos.mk 9 2)) as [[_ Hx] _].
    + apply list_elem_of_further, list_elem_of_here.
    + vm_compute in Hx. by apply Hx.
Defined.

(** X5 on the square: the detector runs fifth, right after the default
    thresholds were set. *)
Lemma detector_configured_before_run_witness :
  events Stub.start
    (call Stub.decode (Stub.canned [Stub.head]) Stub.jpeg Stub.square
          Stub.defaults Stub.start) !! 3%nat
  = Some (EvSetThresholds Stub.fifth Stub.fifth Stub.fifth).
Proof.
  destruct (detector_configured_before_run Stub.decode
              (Stub.canned [Stub.head]) Stub.jpeg Stub.square Stub.defaults
              Stub.start 4%nat (cv.Mat.mk (Some 1%nat) 0 0 2 2))
    as [(j & Hj & Hset) _].
  - reflexivity.
  - injection Hj as <-. exact Hset.
Defined.

(** X7 on the disk of the stand-ins: one box, one rectangle and one label. *)
Lemma main_full_frame_witness :
  ∃ w' out,
    main Stub.decode (Stub.canned [Stub.head]) Disk.open_file None
         Disk.format_confidence ["person_counter"; "image.jpg"]%string
         Stub.start
    = (Ok 0, w',
       out ++ [Rectangle (1, 0) (3, 2); PutText "0.50" (1, -10);
               Imwrite "output.jpg"; Cout "Output saved to output.jpg" None]).
Proof.
  destruct (main_full_frame Stub.decode (Stub.canned [Stub.head])
              Disk.open_file None Disk.format_confidence
              ["person_counter"; "image.jpg"]%string "image.jpg"
              (mkFile Stub.jpeg true) Stub.image [Stub.head] Stub.start)
    as [(w' & out & _ & Hmain) _].
  - reflexivity.
  - reflexivity.
  - repeat split.
  - vm_compute. discriminate.
  - vm_compute. discriminate.
  - reflexivity.
  - vm_compute. reflexivity.
  - vm_compute. discriminate.
  - intros b Hb. apply elem_of_cons in Hb as [->|Hb].
    + split; vm_compute; split; discriminate.
    + by apply elem_of_nil in Hb.
  - exists w', out. exact Hmain.
Defined.

(** X10 with a detector that throws: its exception leaves [main]. *)
Lemma main_never_fails_at_crop_witness :
  fst (fst (main Stub.decode Stub.broken Disk.open_file None
                 Disk.format_confidence
                 ["person_counter"; "image.jpg"]%string Stub.start))
  = Throw InferenceException.
Proof.
  apply (main_never_fails_at_crop Stub.decode Stub.broken Disk.open_file None
           Disk.format_confidence ["person_counter"; "image.jpg"]%string
           "image.jpg" (mkFile Stub.jpeg true) Stub.image Stub.start).
  - reflexivity.
  - reflexivity.
  - repeat split.
  - vm_compute. discriminate.
  - vm_compute. discriminate.
  - reflexivity.
Defined.
